(** * gatttool interactive shell (jni/attrib/interactive.c)

    A shallow embedding of the interactive GATT/ATT client shell: the
    process-wide globals become one record, every [printf] and every call
    into the transport or protocol library is appended to a trace, and each
    command handler and completion callback is a function on that record. *)

From Stdlib Require Import ZArith List String Ascii Bool Lia.
From Stdlib Require Import DecimalString.
Import ListNotations.
Open Scope string_scope.
Open Scope Z_scope.

(** ** C integer types *)

Module CInt.

Definition INT_MIN : Z := - 2 ^ 31.
Definition INT_MAX : Z := 2 ^ 31 - 1.
Definition LLONG_MIN : Z := - 2 ^ 63.
Definition LLONG_MAX : Z := 2 ^ 63 - 1.

(** Conversion of a wider integer to [int]: the value modulo 2^32, taken in
    the signed range (what gcc and clang do). *)
Definition to_int (z : Z) : Z := (z + 2 ^ 31) mod 2 ^ 32 - 2 ^ 31.

(** Conversion to [uint16_t] and [uint8_t]. *)
Definition to_uint16 (z : Z) : Z := z mod 65536.
Definition to_uint8 (z : Z) : Z := z mod 256.

Definition EINVAL : Z := 22.
Definition ERANGE : Z := 34.

End CInt.
Import CInt.

(** ** Characters and strings of the C library and GLib *)

Module CString.

Definition code (c : ascii) : Z := Z.of_nat (nat_of_ascii c).

Definition nl : string := String (ascii_of_nat 10) EmptyString.

(** [isspace] in the C locale: space, and the controls 9..13. *)
Definition isspace (c : ascii) : bool :=
  (code c =? 32) || ((9 <=? code c) && (code c <=? 13)).

Definition tolower (c : ascii) : ascii :=
  if (65 <=? code c) && (code c <=? 90)
  then ascii_of_nat (nat_of_ascii c + 32)%nat else c.

Fixpoint lower (s : string) : string :=
  match s with
  | EmptyString => EmptyString
  | String c r => String (tolower c) (lower r)
  end.

(** [strcasecmp (a, b) == 0]. *)
Definition strcasecmp_eq (a b : string) : bool := String.eqb (lower a) (lower b).

(** [g_strcmp0 (a, b) == 0] on two non-NULL strings. *)
Definition g_strcmp0_eq (a b : string) : bool := String.eqb a b.

Fixpoint skip_space (s : string) : string :=
  match s with
  | String c r => if isspace c then skip_space r else s
  | EmptyString => s
  end.

Fixpoint rev_string (s acc : string) : string :=
  match s with
  | EmptyString => acc
  | String c r => rev_string r (String c acc)
  end.

(** [g_ascii_isspace]: space, tab, newline, form feed and carriage return.
    Unlike [isspace] it does not count the vertical tab (11). *)
Definition g_ascii_isspace (c : ascii) : bool :=
  (code c =? 32) || (code c =? 9) || (code c =? 10) || (code c =? 12)
  || (code c =? 13).

(** [g_strchug]: leading white space removed. *)
Fixpoint g_strchug (s : string) : string :=
  match s with
  | String c r => if g_ascii_isspace c then g_strchug r else s
  | EmptyString => s
  end.

(** [g_strchomp]: trailing white space removed. *)
Definition g_strchomp (s : string) : string :=
  rev_string (g_strchug (rev_string s EmptyString)) EmptyString.

(** [g_strstrip]: [g_strchomp (g_strchug (s))]. *)
Definition g_strstrip (s : string) : string := g_strchomp (g_strchug s).

(** Value of a digit character in bases up to 36. *)
Definition digit_of (c : ascii) : option Z :=
  let n := code c in
  if (48 <=? n) && (n <=? 57) then Some (n - 48)
  else if (97 <=? n) && (n <=? 122) then Some (n - 87)
  else if (65 <=? n) && (n <=? 90) then Some (n - 55)
  else None.

(** The longest run of digits valid in [base]: the accumulated value, whether
    any digit was consumed, and what is left of the string. *)
Fixpoint scan_digits (base : Z) (s : string) (acc : Z) (any : bool)
  : Z * bool * string :=
  match s with
  | EmptyString => (acc, any, s)
  | String c r =>
      match digit_of c with
      | Some d => if d <? base then scan_digits base r (acc * base + d) true
                  else (acc, any, s)
      | None => (acc, any, s)
      end
  end.

(** What a [strtol]-family call leaves behind: the returned value, the
    string [*endptr] points to, and [errno] (the callers clear it first). *)
Record strto_result := { value : Z; endp : string; errno : Z }.

Definition is_x (c : ascii) : bool := (code c =? 120) || (code c =? 88).

(** [strtol]/[strtoll] with the result type's range [lo..hi]: white space,
    an optional sign, an optional 0x prefix in base 16 (or 0), then digits.
    Out of range gives the nearest bound and ERANGE; no digits at all gives 0
    with [*endptr] at the start of the string (at the x after a lone 0x). *)
Definition strto (lo hi : Z) (nptr : string) (base : Z) : strto_result :=
  let s1 := skip_space nptr in
  let '(neg, s2) :=
    match s1 with
    | String "-"%char r => (true, r)
    | String "+"%char r => (false, r)
    | _ => (false, s1)
    end in
  let '(b, s3, after_zero) :=
    match s2 with
    | String "0"%char (String x r) =>
        if ((base =? 0) || (base =? 16)) && is_x x
        then (16, r, Some (String x r))
        else (if base =? 0 then 8 else base, s2, None)
    | String "0"%char EmptyString => (if base =? 0 then 8 else base, s2, None)
    | _ => (if base =? 0 then 10 else base, s2, None)
    end in
  let '(acc, any, rest) := scan_digits b s3 0 false in
  if any then
    let v := if neg then - acc else acc in
    if v <? lo then {| value := lo; endp := rest; errno := ERANGE |}
    else if hi <? v then {| value := hi; endp := rest; errno := ERANGE |}
    else {| value := v; endp := rest; errno := 0 |}
  else
    match after_zero with
    | Some at_x => {| value := 0; endp := at_x; errno := 0 |}
    | None => {| value := 0; endp := nptr; errno := 0 |}
    end.

Definition strtoll : string -> Z -> strto_result := strto LLONG_MIN LLONG_MAX.

(** [strtol]; [long] is taken as 64 bits wide (LP64). *)
Definition strtol : string -> Z -> strto_result := strto LLONG_MIN LLONG_MAX.

(** *** printf conversions *)

Definition hex_digit (upper : bool) (d : Z) : ascii :=
  if d <? 10 then ascii_of_nat (Z.to_nat (48 + d))
  else ascii_of_nat (Z.to_nat ((if upper then 55 else 87) + d)).

(** The [n] low hexadecimal digits of [z], most significant first. *)
Fixpoint hex_fixed (upper : bool) (n : nat) (z : Z) (acc : string) : string :=
  match n with
  | O => acc
  | S k => hex_fixed upper k (z / 16) (String (hex_digit upper (z mod 16)) acc)
  end.

(** [%04x] and [%04X] of a [uint16_t], [%02x] of a [uint8_t]. *)
Definition fmt_04x (z : Z) : string := hex_fixed false 4 (to_uint16 z) EmptyString.
Definition fmt_04X (z : Z) : string := hex_fixed true 4 (to_uint16 z) EmptyString.
Definition fmt_02x (z : Z) : string := hex_fixed false 2 (to_uint8 z) EmptyString.

(** [%i] and [%d] of an [int]. *)
Definition fmt_i (z : Z) : string := NilZero.string_of_int (Z.to_int z).

(** [%s]; glibc prints a NULL pointer as (null). *)
Definition fmt_s (s : option string) : string :=
  match s with Some x => x | None => "(null)" end.

Fixpoint spaces (n : nat) : string :=
  match n with O => EmptyString | S k => String " "%char (spaces k) end.

(** [%17s]: right-justified in a field of 17. *)
Definition fmt_17s (s : string) : string := spaces (17 - String.length s)%nat ++ s.

End CString.
Import CString.

(** ** Protocol constants and types *)

(** Constants of att.h, which is not among the sources at hand; the values
    are those the Bluetooth Core Specification fixes for the attribute
    protocol. *)
Module Att.

Definition ATT_OP_HANDLE_NOTIFY : Z := 27.
Definition ATT_OP_HANDLE_IND : Z := 29.
Definition ATT_ECODE_INVALID_HANDLE : Z := 1.
Definition ATT_ECODE_INVALID_PDU : Z := 4.
Definition ATT_ECODE_INVALID_OFFSET : Z := 7.
Definition ATT_ECODE_ATTR_NOT_FOUND : Z := 10.
Definition ATT_ECODE_UNLIKELY : Z := 14.
Definition ATT_DEFAULT_LE_MTU : Z := 23.

(** [att_get_u16]: a little-endian 16-bit value at the start of a buffer. *)
Definition att_get_u16 (p : list Z) : Z := nth 0 p 0 + 256 * nth 1 p 0.

End Att.
Import Att.

(** [bt_uuid_t] of bluetooth/uuid.h: a tagged union. *)
Inductive bt_uuid_t :=
| BT_UUID16 (u16 : Z)
| BT_UUID32 (u32 : Z)
| BT_UUID128 (u128 : list Z).

(** [struct att_data_list]; [num] is the length of [data]. *)
Record att_data_list := { len : Z; data : list (list Z) }.

Record gatt_primary := { prim_uuid : string; range_start : Z; range_end : Z }.
Record att_range := { ar_start : Z; ar_end : Z }.
Record gatt_char :=
  { char_uuid : string; handle : Z; properties : Z; value_handle : Z }.

Record GError := { gerr_code : Z; gerr_message : string }.

Inductive BtIOSecLevel := BT_IO_SEC_LOW | BT_IO_SEC_MEDIUM | BT_IO_SEC_HIGH.

(** ** The program's own data *)

(** [struct characteristic_data]; the three handles are [uint16_t]. *)
Record characteristic_data :=
  { cd_orig_start : Z; cd_start : Z; cd_end : Z; cd_uuid : bt_uuid_t }.

Inductive state := STATE_DISCONNECTED | STATE_CONNECTING | STATE_CONNECTED.

Definition state_eqb (a b : state) : bool :=
  match a, b with
  | STATE_DISCONNECTED, STATE_DISCONNECTED
  | STATE_CONNECTING, STATE_CONNECTING
  | STATE_CONNECTED, STATE_CONNECTED => true
  | _, _ => false
  end.

(** The completion callbacks a request can be issued with; the read-by-UUID
    one travels with its [user_data]. *)
Inductive callback :=
| CB_primary_all
| CB_primary_by_uuid
| CB_char
| CB_char_desc
| CB_char_read
| CB_char_read_by_uuid (user_data : characteristic_data)
| CB_char_write_req
| CB_exchange_mtu.

(** Calls into the transport and the protocol library.  Arguments are
    recorded as the caller evaluates them. *)
Inductive call :=
| gatt_connect (src dst dst_type sec_level : option string) (psm mtu : Z)
| g_io_add_watch
| g_attrib_new
| g_attrib_register (opcode : Z)
| g_attrib_unref
| g_io_channel_shutdown
| g_io_channel_unref
| bt_io_get
| bt_io_set (sec_level : BtIOSecLevel)
| gatt_discover_primary (uuid : option bt_uuid_t) (func : callback)
| gatt_discover_char (s e : Z) (uuid : option bt_uuid_t) (func : callback)
| gatt_find_info (s e : Z) (func : callback)
| gatt_read_char (h offset : Z) (func : callback)
| gatt_read_char_by_uuid (s e : Z) (uuid : bt_uuid_t) (func : callback)
| gatt_write_char (h : Z) (v : list Z) (func : option callback)
| gatt_exchange_mtu (mtu : Z) (func : callback)
| g_attrib_set_mtu (mtu : Z)
| g_attrib_send (pdu : list Z)
| g_free (char_data : characteristic_data)
| g_main_loop_quit.

(** Calls into readline. *)
Inductive readline :=
| rl_on_new_line
| rl_set_prompt (p : string)
| rl_redisplay
| rl_forced_update_display
| rl_callback_handler_remove
| add_history (l : string).

(** What the program does to the outside, in order. *)
Inductive effect :=
| printf (s : string)
| rl (r : readline)
| lib (c : call).

(** The globals of the file, and the trace of effects so far.  Of the two
    pointers [iochannel] and [attrib] only whether they are non-NULL is
    kept. *)
Record world := {
  iochannel : bool;
  attrib : bool;
  opt_src : option string;
  opt_dst : option string;
  opt_dst_type : option string;
  opt_sec_level : option string;
  opt_psm : Z;
  opt_mtu : Z;
  conn_handle : Z;
  start : Z;
  end_ : Z;
  conn_state : state;
  trace : list effect
}.

Definition set_iochannel v w :=
  {| iochannel := v; attrib := attrib w; opt_src := opt_src w;
     opt_dst := opt_dst w; opt_dst_type := opt_dst_type w;
     opt_sec_level := opt_sec_level w; opt_psm := opt_psm w;
     opt_mtu := opt_mtu w; conn_handle := conn_handle w; start := start w;
     end_ := end_ w; conn_state := conn_state w; trace := trace w |}.
Definition set_attrib v w :=
  {| iochannel := iochannel w; attrib := v; opt_src := opt_src w;
     opt_dst := opt_dst w; opt_dst_type := opt_dst_type w;
     opt_sec_level := opt_sec_level w; opt_psm := opt_psm w;
     opt_mtu := opt_mtu w; conn_handle := conn_handle w; start := start w;
     end_ := end_ w; conn_state := conn_state w; trace := trace w |}.
Definition set_opt_dst v w :=
  {| iochannel := iochannel w; attrib := attrib w; opt_src := opt_src w;
     opt_dst := v; opt_dst_type := opt_dst_type w;
     opt_sec_level := opt_sec_level w; opt_psm := opt_psm w;
     opt_mtu := opt_mtu w; conn_handle := conn_handle w; start := start w;
     end_ := end_ w; conn_state := conn_state w; trace := trace w |}.
Definition set_opt_dst_type v w :=
  {| iochannel := iochannel w; attrib := attrib w; opt_src := opt_src w;
     opt_dst := opt_dst w; opt_dst_type := v;
     opt_sec_level := opt_sec_level w; opt_psm := opt_psm w;
     opt_mtu := opt_mtu w; conn_handle := conn_handle w; start := start w;
     end_ := end_ w; conn_state := conn_state w; trace := trace w |}.
Definition set_opt_sec_level v w :=
  {| iochannel := iochannel w; attrib := attrib w; opt_src := opt_src w;
     opt_dst := opt_dst w; opt_dst_type := opt_dst_type w;
     opt_sec_level := v; opt_psm := opt_psm w;
     opt_mtu := opt_mtu w; conn_handle := conn_handle w; start := start w;
     end_ := end_ w; conn_state := conn_state w; trace := trace w |}.
Definition set_opt_psm v w :=
  {| iochannel := iochannel w; attrib := attrib w; opt_src := opt_src w;
     opt_dst := opt_dst w; opt_dst_type := opt_dst_type w;
     opt_sec_level := opt_sec_level w; opt_psm := v;
     opt_mtu := opt_mtu w; conn_handle := conn_handle w; start := start w;
     end_ := end_ w; conn_state := conn_state w; trace := trace w |}.
Definition set_opt_mtu v w :=
  {| iochannel := iochannel w; attrib := attrib w; opt_src := opt_src w;
     opt_dst := opt_dst w; opt_dst_type := opt_dst_type w;
     opt_sec_level := opt_sec_level w; opt_psm := opt_psm w;
     opt_mtu := v; conn_handle := conn_handle w; start := start w;
     end_ := end_ w; conn_state := conn_state w; trace := trace w |}.
Definition set_conn_handle v w :=
  {| iochannel := iochannel w; attrib := attrib w; opt_src := opt_src w;
     opt_dst := opt_dst w; opt_dst_type := opt_dst_type w;
     opt_sec_level := opt_sec_level w; opt_psm := opt_psm w;
     opt_mtu := opt_mtu w; conn_handle := v; start := start w;
     end_ := end_ w; conn_state := conn_state w; trace := trace w |}.
Definition set_start v w :=
  {| iochannel := iochannel w; attrib := attrib w; opt_src := opt_src w;
     opt_dst := opt_dst w; opt_dst_type := opt_dst_type w;
     opt_sec_level := opt_sec_level w; opt_psm := opt_psm w;
     opt_mtu := opt_mtu w; conn_handle := conn_handle w; start := v;
     end_ := end_ w; conn_state := conn_state w; trace := trace w |}.
Definition set_end v w :=
  {| iochannel := iochannel w; attrib := attrib w; opt_src := opt_src w;
     opt_dst := opt_dst w; opt_dst_type := opt_dst_type w;
     opt_sec_level := opt_sec_level w; opt_psm := opt_psm w;
     opt_mtu := opt_mtu w; conn_handle := conn_handle w; start := start w;
     end_ := v; conn_state := conn_state w; trace := trace w |}.
Definition set_conn_state v w :=
  {| iochannel := iochannel w; attrib := attrib w; opt_src := opt_src w;
     opt_dst := opt_dst w; opt_dst_type := opt_dst_type w;
     opt_sec_level := opt_sec_level w; opt_psm := opt_psm w;
     opt_mtu := opt_mtu w; conn_handle := conn_handle w; start := start w;
     end_ := end_ w; conn_state := v; trace := trace w |}.
Definition set_trace v w :=
  {| iochannel := iochannel w; attrib := attrib w; opt_src := opt_src w;
     opt_dst := opt_dst w; opt_dst_type := opt_dst_type w;
     opt_sec_level := opt_sec_level w; opt_psm := opt_psm w;
     opt_mtu := opt_mtu w; conn_handle := conn_handle w; start := start w;
     end_ := end_ w; conn_state := conn_state w; trace := v |}.

(** A procedure of the program: it reads and updates the globals and appends
    to the trace. *)
Definition proc := world -> world.

Definition seq (f g : proc) : proc := fun w => g (f w).
Infix ">>" := seq (at level 61, left associativity).

Definition skip : proc := fun w => w.
Definition emit (e : effect) : proc := fun w => set_trace (trace w ++ [e])%list w.
Definition say (s : string) : proc := emit (printf s).
Definition invoke (c : call) : proc := emit (lib c).
Definition readline_do (r : readline) : proc := emit (rl r).

(** A procedure that first reads the globals. *)
Definition reading {A} (get : world -> A) (k : A -> proc) : proc :=
  fun w => k (get w) w.

(** The calls and the printed pieces of a trace. *)
Fixpoint calls (t : list effect) : list call :=
  match t with
  | [] => []
  | lib c :: r => c :: calls r
  | _ :: r => calls r
  end.

Fixpoint printed (t : list effect) : list string :=
  match t with
  | [] => []
  | printf s :: r => s :: printed r
  | _ :: r => printed r
  end.

(** What the outside answers.  The tokenizer, the UUID and value parsers, the
    PDU decoders and the error texts are functions of their input; the
    transport's answers are those it gives during the current turn of the
    loop. *)
Record collaborators := {
  g_shell_parse_argv : string -> option (list string);
  bt_string_to_uuid : string -> option bt_uuid_t;
  bt_uuid_to_string : bt_uuid_t -> string;
  att_get_uuid16 : list Z -> bt_uuid_t;
  att_get_uuid128 : list Z -> bt_uuid_t;
  att_ecode2str : Z -> string;
  gatt_attr_data_from_string : string -> list Z;
  dec_find_info_resp : list Z -> option (Z * att_data_list);
  dec_read_resp : list Z -> option (list Z);
  dec_read_by_type_resp : list Z -> option att_data_list;
  dec_write_resp : list Z -> bool;
  dec_exec_write_resp : list Z -> bool;
  dec_mtu_resp : list Z -> option Z;
  enc_confirmation : list Z;
  gatt_connect_ret : bool;
  bt_io_get_ret : GError + Z;
  bt_io_set_ret : BtIOSecLevel -> option GError;
  g_attrib_set_mtu_ret : Z -> bool
}.

(** ** The program *)

Section Program.

Variable E : collaborators.

Definition sayf (f : world -> string) : proc := reading f say.

Definition update_display : proc := readline_do rl_forced_update_display.

Fixpoint for_each {A} (l : list A) (body : A -> proc) : proc :=
  match l with
  | [] => skip
  | x :: r => body x >> for_each r body
  end.

(** [TAG(%04x)] with the connection handle, the head of most output lines. *)
Definition tag (t : string) (w : world) : string :=
  t ++ "(" ++ fmt_04x (conn_handle w) ++ ")".

Definition get_prompt (w : world) : string :=
  match conn_state w with
  | STATE_CONNECTING => nl ++ "Connecting..." ++ nl
  | st =>
      nl ++ (if state_eqb st STATE_CONNECTED then "[CON]" else "[   ]")
      ++ "[" ++ fmt_17s (match opt_dst w with Some d => d | None => EmptyString end)
      ++ "]"
      ++ (if opt_psm w =? 0 then "[LE]" else "[BR]") ++ nl ++ "> "
  end.

Definition set_state (st : state) : proc :=
  set_conn_state st >>
  reading conn_state (fun s =>
    if state_eqb s STATE_CONNECTED then skip else set_conn_handle 0) >>
  readline_do rl_on_new_line >>
  reading get_prompt (fun p => readline_do (rl_set_prompt p)) >>
  readline_do rl_redisplay.

Definition events_handler (pdu : list Z) : proc :=
  let h := att_get_u16 (skipn 1 pdu) in
  let op := nth 0 pdu 0 in
  let rest :=
    for_each (skipn 3 pdu) (fun b => say (fmt_02x b ++ " ")) >>
    say nl >> update_display >>
    (if op =? ATT_OP_HANDLE_NOTIFY then skip
     else
       let opdu := enc_confirmation E in
       if 0 <? Z.of_nat (List.length opdu) then invoke (g_attrib_send opdu)
       else skip) in
  say nl >>
  (if op =? ATT_OP_HANDLE_NOTIFY then
     sayf (fun w => tag "NOTIFICATION" w ++ ": " ++ fmt_04x h ++ " ") >> rest
   else if op =? ATT_OP_HANDLE_IND then
     sayf (fun w => tag "INDICATION" w ++ ": " ++ fmt_04x h ++ " ") >> rest
   else
     sayf (fun w => tag "ERROR" w ++ ": (16,256) Invalid opcode" ++ nl) >>
     update_display).

(** [g_attrib_new] is taken to return an object. *)
Definition connect_cb (err : option GError) : proc :=
  match err with
  | Some e =>
      set_state STATE_DISCONNECTED >>
      sayf (fun w => nl ++ tag "CONNECTED" w ++ ": " ++ fmt_s (opt_dst w)
                     ++ " " ++ fmt_i (gerr_code e) ++ " " ++ gerr_message e
                     ++ nl) >>
      update_display
  | None =>
      invoke g_attrib_new >> set_attrib true >>
      invoke (g_attrib_register ATT_OP_HANDLE_NOTIFY) >>
      invoke (g_attrib_register ATT_OP_HANDLE_IND) >>
      invoke bt_io_get >>
      match bt_io_get_ret E with
      | inl gerr =>
          sayf (fun w => tag "CONNECTED" w ++ ": " ++ fmt_s (opt_dst w)
                         ++ " " ++ fmt_i (gerr_code gerr) ++ " "
                         ++ gerr_message gerr ++ nl) >>
          set_conn_handle 0 >>
          update_display
      | inr h =>
          set_conn_handle (to_uint16 h) >>
          sayf (fun w => nl ++ tag "CONNECTED" w ++ ": " ++ fmt_s (opt_dst w)
                         ++ " 0" ++ nl) >>
          set_state STATE_CONNECTED
      end
  end.

Definition disconnect_io : proc :=
  reading conn_state (fun st =>
    if state_eqb st STATE_DISCONNECTED then skip
    else
      invoke g_attrib_unref >> set_attrib false >>
      set_opt_mtu 0 >>
      invoke g_io_channel_shutdown >> invoke g_io_channel_unref >>
      set_iochannel false >>
      sayf (fun w => nl ++ "DISCONNECTED(" ++ fmt_04X (conn_handle w) ++ "): "
                     ++ fmt_s (opt_dst w) ++ nl) >>
      set_state STATE_DISCONNECTED).

Definition primary_all_cb (services : list gatt_primary) (status : Z) : proc :=
  if negb (status =? 0) then
    sayf (fun w => nl ++ tag "PRIMARY-ALL-END" w ++ ": " ++ fmt_i status
                   ++ " " ++ att_ecode2str E status ++ nl) >>
    update_display
  else
    say nl >>
    for_each services (fun prim =>
      sayf (fun w => tag "PRIMARY-ALL" w ++ ": " ++ fmt_04x (range_start prim)
                     ++ " " ++ fmt_04x (range_end prim) ++ " "
                     ++ prim_uuid prim ++ nl)) >>
    sayf (fun w => tag "PRIMARY-ALL-END" w ++ ": 0" ++ nl) >>
    update_display.

Definition primary_by_uuid_cb (ranges : list att_range) (status : Z) : proc :=
  if negb (status =? 0) then
    sayf (fun w => tag "PRIMARY-UUID-END" w ++ ": " ++ fmt_i status
                   ++ " " ++ att_ecode2str E status ++ nl) >>
    update_display
  else
    say nl >>
    for_each ranges (fun range =>
      sayf (fun w => tag "PRIMARY-UUID" w ++ ": " ++ fmt_04x (ar_start range)
                     ++ " " ++ fmt_04x (ar_end range) ++ nl)) >>
    sayf (fun w => tag "PRIMARY-UUID-END" w ++ ": 0" ++ nl) >>
    update_display.

Definition char_cb (characteristics : list gatt_char) (status : Z) : proc :=
  if negb (status =? 0) then
    sayf (fun w => tag "CHAR-END" w ++ ": " ++ fmt_i status
                   ++ " " ++ att_ecode2str E status ++ nl) >>
    update_display
  else
    say nl >>
    for_each characteristics (fun chars =>
      sayf (fun w => tag "CHAR" w ++ ": " ++ fmt_04x (handle chars) ++ " "
                     ++ fmt_02x (properties chars) ++ " "
                     ++ fmt_04x (value_handle chars) ++ " "
                     ++ char_uuid chars ++ nl)) >>
    sayf (fun w => tag "CHAR-END" w ++ ": 0" ++ nl) >>
    update_display.

(** The listing loop of [char_desc_cb]: the lines to print and the handle
    of the last entry ([h] when there is none). *)
Fixpoint char_desc_rows (format : Z) (rows : list (list Z)) (h : Z)
  : proc * Z :=
  match rows with
  | [] => (skip, h)
  | value :: r =>
      let h' := att_get_u16 value in
      let uuid := if format =? 1 then att_get_uuid16 E (skipn 2 value)
                  else att_get_uuid128 E (skipn 2 value) in
      let '(p, last) := char_desc_rows format r h' in
      (sayf (fun w => tag "CHAR-DESC" w ++ ": " ++ fmt_04x h' ++ " "
                      ++ bt_uuid_to_string E uuid ++ nl) >> p, last)
  end.

Definition char_desc_cb (status : Z) (pdu : list Z) : proc :=
  if negb (status =? 0) then
    sayf (fun w => tag "CHAR-DESC-END" w ++ ": " ++ fmt_i status
                   ++ " " ++ att_ecode2str E status ++ nl) >>
    update_display
  else
    let '(listing, h) :=
      match dec_find_info_resp E pdu with
      | Some (format, list) =>
          let '(p, last) := char_desc_rows format (data list) 65535 in
          (say nl >> p, last)
      | None => (skip, 65535)
      end in
    listing >>
    sayf (fun w => tag "CHAR-DESC-END" w ++ ": 0" ++ nl) >>
    reading end_ (fun e =>
      if negb (h =? 65535) && (h <? e)
      then invoke (gatt_find_info (h + 1) e CB_char_desc)
      else update_display).

Definition char_read_cb (status : Z) (pdu : list Z) : proc :=
  if negb (status =? 0) then
    sayf (fun w => nl ++ tag "CHAR-VAL-DESC" w ++ ": " ++ fmt_i status
                   ++ " " ++ att_ecode2str E status ++ nl) >>
    update_display
  else
    match dec_read_resp E pdu with
    | None =>
        sayf (fun w => nl ++ tag "CHAR-VAL-DESC" w ++ ": "
                       ++ fmt_i ATT_ECODE_INVALID_PDU ++ " "
                       ++ att_ecode2str E ATT_ECODE_INVALID_PDU ++ nl) >>
        update_display
    | Some v =>
        sayf (fun w => nl ++ tag "CHAR-VAL-DESC" w ++ ": 0 ") >>
        for_each v (fun b => say (fmt_02x b ++ " ")) >>
        say nl >>
        update_display
    end.

(** The listing loop of [char_read_by_uuid_cb]: every entry moves the
    cursor [char_data->start] one past its handle. *)
Fixpoint char_read_by_uuid_rows (l : Z) (rows : list (list Z))
    (char_data : characteristic_data) : proc * characteristic_data :=
  match rows with
  | [] => (skip, char_data)
  | value :: r =>
      let cd := {| cd_orig_start := cd_orig_start char_data;
                   cd_start := to_uint16 (att_get_u16 value + 1);
                   cd_end := cd_end char_data;
                   cd_uuid := cd_uuid char_data |} in
      let '(p, cd') := char_read_by_uuid_rows l r cd in
      (sayf (fun w => nl ++ tag "CHAR-READ-UUID" w ++ ": "
                      ++ fmt_04x (att_get_u16 value) ++ " ") >>
       for_each (List.seq 0 (Z.to_nat (l - 2)))
                (fun j => say (fmt_02x (nth (2 + j) value 0) ++ " ")) >>
       say nl >> p, cd')
  end.

Definition char_read_by_uuid_cb (status : Z) (pdu : list Z)
    (char_data : characteristic_data) : proc :=
  let done cd := update_display >> invoke (g_free cd) in
  if (status =? ATT_ECODE_ATTR_NOT_FOUND)
     && negb (cd_start char_data =? cd_orig_start char_data)
  then done char_data
  else if negb (status =? 0) then
    sayf (fun w => tag "CHAR-READ-UUID-END" w ++ ": " ++ fmt_i status
                   ++ " " ++ att_ecode2str E status ++ nl) >>
    done char_data
  else
    match dec_read_by_type_resp E pdu with
    | None => done char_data
    | Some list =>
        let '(p, cd) := char_read_by_uuid_rows (len list) (data list) char_data in
        p >>
        sayf (fun w => tag "CHAR-READ-UUID-END" w ++ ": 0" ++ nl) >>
        done cd
    end.

Definition cmd_exit (argv : list string) : proc :=
  readline_do rl_callback_handler_remove >> invoke g_main_loop_quit.

Definition channel_watcher : proc :=
  sayf (fun w => nl ++ tag "DISCONNECTED" w ++ ": " ++ fmt_s (opt_dst w) ++ nl) >>
  disconnect_io >>
  update_display.

Definition argc (argv : list string) : Z := Z.of_nat (List.length argv).
Definition arg (n : nat) (argv : list string) : string := nth n argv EmptyString.

Definition cmd_connect (argv : list string) : proc :=
  reading conn_state (fun st =>
    if negb (state_eqb st STATE_DISCONNECTED) then skip
    else
      (if 1 <? argc argv then
         set_opt_dst (Some (arg 1 argv)) >>
         set_opt_dst_type
           (Some (if 2 <? argc argv then arg 2 argv else "public"))
       else skip) >>
      reading opt_dst (fun dst =>
        match dst with
        | None =>
            say (nl ++ "CONNECT(0000): 1 00:00:00:00:00:00 "
                 ++ "Remote Bluetooth address required" ++ nl) >>
            update_display
        | Some _ =>
            set_state STATE_CONNECTING >>
            reading (fun w => w) (fun w =>
              invoke (gatt_connect (opt_src w) (opt_dst w) (opt_dst_type w)
                        (opt_sec_level w) (opt_psm w) (opt_mtu w))) >>
            set_iochannel (gatt_connect_ret E) >>
            (if gatt_connect_ret E then invoke g_io_add_watch
             else set_state STATE_DISCONNECTED)
        end)).

Definition cmd_disconnect (argv : list string) : proc := disconnect_io.

Definition cmd_primary (argv : list string) : proc :=
  reading conn_state (fun st =>
    if negb (state_eqb st STATE_CONNECTED) then
      (if negb (argc argv =? 0)
       then say (nl ++ "PRIMARY-ALL(0000): 256 Command failed: disconnected" ++ nl)
       else say (nl ++ "PRIMARY-UUID(0000): 256 Command failed: disconnected" ++ nl)) >>
      update_display
    else if argc argv =? 1 then
      invoke (gatt_discover_primary None CB_primary_all) >>
      update_display
    else
      match bt_string_to_uuid E (arg 1 argv) with
      | None =>
          sayf (fun w => nl ++ tag "PRIMARY-UUID" w ++ ": 1 Invalid UUID" ++ nl) >>
          update_display
      | Some uuid =>
          invoke (gatt_discover_primary (Some uuid) CB_primary_by_uuid)
      end).

Definition strtohandle (src : string) : Z :=
  let r := strtoll src 16 in
  let dst := to_int (value r) in
  if negb (errno r =? 0) || negb (String.eqb (endp r) EmptyString) then - EINVAL
  else dst.

Definition cmd_char (argv : list string) : proc :=
  reading conn_state (fun st =>
    if negb (state_eqb st STATE_CONNECTED) then
      say (nl ++ "CHAR-DESC-END(0000): 256 disconnected" ++ nl) >>
      update_display
    else
      let start := if 1 <? argc argv then strtohandle (arg 1 argv) else 1 in
      if (1 <? argc argv) && (start <? 0) then
        sayf (fun w => nl ++ tag "CHAR-DESC-END" w ++ ": "
                       ++ fmt_i ATT_ECODE_INVALID_HANDLE
                       ++ " Invalid start handle: " ++ arg 1 argv ++ nl) >>
        update_display
      else
        let end_ := if 2 <? argc argv then strtohandle (arg 2 argv) else 65535 in
        if (2 <? argc argv) && (end_ <? 0) then
          sayf (fun w => nl ++ tag "CHAR-DESC-END" w ++ ": "
                         ++ fmt_i ATT_ECODE_INVALID_HANDLE
                         ++ " Invalid end handle: " ++ arg 2 argv ++ nl) >>
          update_display
        else if 3 <? argc argv then
          match bt_string_to_uuid E (arg 3 argv) with
          | None =>
              sayf (fun w => nl ++ tag "CHAR-DESC-END" w ++ ": "
                             ++ fmt_i ATT_ECODE_UNLIKELY ++ " Invalid UUID"
                             ++ nl) >>
              update_display
          | Some uuid =>
              invoke (gatt_discover_char start end_ (Some uuid) CB_char)
          end
        else invoke (gatt_discover_char start end_ None CB_char)).

(** [cmd_char_desc] works on the file-level [start] and [end], which
    [char_desc_cb] reads again on every page. *)
Definition cmd_char_desc (argv : list string) : proc :=
  reading conn_state (fun st =>
    if negb (state_eqb st STATE_CONNECTED) then
      say (nl ++ "CHAR-DESC-END(0000): 256 Command failed: disconnected" ++ nl) >>
      update_display
    else
      set_start (if 1 <? argc argv then strtohandle (arg 1 argv) else 1) >>
      reading start (fun s =>
        if (1 <? argc argv) && (s <? 0) then
          sayf (fun w => nl ++ tag "CHAR-DESC-END" w ++ ": "
                         ++ fmt_i ATT_ECODE_INVALID_HANDLE
                         ++ " Invalid start handle: " ++ arg 1 argv ++ nl) >>
          update_display
        else
          set_end (if 2 <? argc argv then strtohandle (arg 2 argv) else 65535) >>
          reading end_ (fun e =>
            if (2 <? argc argv) && (e <? s) then
              sayf (fun w => nl ++ tag "CHAR-DESC-END" w ++ ": "
                             ++ fmt_i ATT_ECODE_INVALID_HANDLE
                             ++ " Invalid end handle: " ++ arg 2 argv
                             ++ nl ++ nl) >>
              update_display
            else invoke (gatt_find_info s e CB_char_desc)))).

Definition cmd_read_hnd (argv : list string) : proc :=
  reading conn_state (fun st =>
    if negb (state_eqb st STATE_CONNECTED) then
      say (nl ++ "CHAR-READ-HND(0000): 256 Command failed: disconnected" ++ nl) >>
      update_display
    else if argc argv <? 2 then
      sayf (fun w => nl ++ tag "CHAR-READ-HND" w
                     ++ ": 1 Missing argument: handle" ++ nl) >>
      update_display
    else
      let h := strtohandle (arg 1 argv) in
      if h <? 0 then
        sayf (fun w => nl ++ tag "CHAR-READ-HND" w ++ ": 1 Invalid handle: "
                       ++ arg 1 argv ++ nl) >>
        update_display
      else if 2 <? argc argv then
        let r := strtol (arg 2 argv) 0 in
        if negb (errno r =? 0) || negb (String.eqb (endp r) EmptyString) then
          sayf (fun w => nl ++ tag "CHAR-READ-HND" w ++ ": "
                         ++ fmt_i ATT_ECODE_INVALID_OFFSET
                         ++ " Invalid offset: " ++ arg 2 argv ++ nl) >>
          update_display
        else invoke (gatt_read_char h (to_int (value r)) CB_char_read)
      else invoke (gatt_read_char h 0 CB_char_read)).

Definition cmd_read_uuid (argv : list string) : proc :=
  reading conn_state (fun st =>
    if negb (state_eqb st STATE_CONNECTED) then
      say (nl ++ "CHAR-READ-UUID(0000): 256 Command failed: disconnected" ++ nl) >>
      update_display
    else if argc argv <? 2 then
      sayf (fun w => nl ++ tag "CHAR-READ-UUID" w
                     ++ ": 1 Missing argument: UUID" ++ nl) >>
      update_display
    else
      match bt_string_to_uuid E (arg 1 argv) with
      | None =>
          sayf (fun w => nl ++ tag "CHAR-READ-UUID" w ++ ": 1 Invalid UUID" ++ nl) >>
          update_display
      | Some uuid =>
          let start := if 2 <? argc argv then strtohandle (arg 2 argv) else 1 in
          if (2 <? argc argv) && (start <? 0) then
            sayf (fun w => nl ++ tag "CHAR-READ-UUID" w ++ ": "
                           ++ fmt_i ATT_ECODE_INVALID_HANDLE
                           ++ " Invalid start handle: " ++ arg 1 argv ++ nl) >>
            update_display
          else
            let end_ := if 3 <? argc argv then strtohandle (arg 3 argv)
                        else 65535 in
            if (3 <? argc argv) && (end_ <? start) then
              sayf (fun w => nl ++ tag "CHAR-READ-UUID" w ++ ": "
                             ++ fmt_i ATT_ECODE_INVALID_HANDLE
                             ++ " Invalid end handle: " ++ arg 2 argv ++ nl) >>
              update_display
            else
              let char_data :=
                {| cd_orig_start := to_uint16 start;
                   cd_start := to_uint16 start;
                   cd_end := to_uint16 end_;
                   cd_uuid := uuid |} in
              invoke (gatt_read_char_by_uuid start end_ uuid
                        (CB_char_read_by_uuid char_data))
      end).

Definition char_write_req_cb (status : Z) (pdu : list Z) : proc :=
  if negb (status =? 0) then
    sayf (fun w => nl ++ tag "CHAR-WRITE-REQ" w ++ ": " ++ fmt_i status
                   ++ " " ++ att_ecode2str E status ++ nl) >>
    update_display
  else
    (if negb (dec_write_resp E pdu) && negb (dec_exec_write_resp E pdu)
     then sayf (fun w => nl ++ tag "CHAR-WRITE-REQ" w ++ ": 1" ++ nl)
     else sayf (fun w => nl ++ tag "CHAR-WRITE-REQ" w ++ ": 0" ++ nl)) >>
    update_display.

Definition cmd_char_write (argv : list string) : proc :=
  if argc argv <? 3 then
    sayf (fun w => nl ++ tag "CHAR-WRITE-" w ++ ": 257 Usage: " ++ arg 0 argv
                   ++ " <handle> <new value>" ++ nl) >>
    update_display
  else
    let mode := g_strcmp0_eq "char-write-req" (arg 0 argv) in
    let say_tag := if mode then say (nl ++ "CHAR-WRITE-REQ")
                   else say (nl ++ "CHAR-WRITE-CMD") in
    reading conn_state (fun st =>
      if negb (state_eqb st STATE_CONNECTED) then
        say_tag >>
        say ("(000): 256 Command failed: disconnected" ++ nl) >>
        update_display
      else
        let h := strtohandle (arg 1 argv) in
        if h <=? 0 then
          say_tag >>
          sayf (fun w => "(" ++ fmt_04x (conn_handle w) ++ "): "
                         ++ fmt_i ATT_ECODE_INVALID_HANDLE
                         ++ " A valid handle is required" ++ nl) >>
          update_display
        else
          let v := gatt_attr_data_from_string E (arg 2 argv) in
          if Z.of_nat (List.length v) =? 0 then
            say_tag >>
            sayf (fun w => "(" ++ fmt_04x (conn_handle w) ++ "): "
                           ++ fmt_i ATT_ECODE_INVALID_HANDLE
                           ++ " invalid value" ++ nl) >>
            update_display
          else if g_strcmp0_eq "char-write-req" (arg 0 argv) then
            invoke (gatt_write_char h v (Some CB_char_write_req))
          else
            invoke (gatt_write_char h v None) >>
            sayf (fun w => nl ++ tag "CHAR-WRITE-CMD" w ++ ": 0" ++ nl) >>
            update_display).

(** The closing line of [cmd_sec_level], also its answer to a bare query. *)
Definition sec_level_report : proc :=
  sayf (fun w => nl ++ tag "SEC-LEVEL" w ++ ": 0 "
                 ++ fmt_s (opt_sec_level w) ++ nl) >>
  update_display.

(** The part of [cmd_sec_level] that follows the assignment to
    [opt_sec_level]. *)
Definition sec_level_apply (sec_level : BtIOSecLevel) : proc :=
  reading opt_psm (fun psm =>
  reading conn_state (fun st =>
    if (psm =? 0) && negb (state_eqb st STATE_CONNECTED) then
      say (nl ++ "SEC-LEVEL(0000): 256 It can only be done when connected"
           ++ " for LE connections" ++ nl) >>
      update_display
    else
      (if negb (psm =? 0) && negb (state_eqb st STATE_DISCONNECTED)
       then
         sayf (fun w => nl ++ tag "SEC-LEVEL" w
                        ++ ": 256 It must be disconnected to this "
                        ++ "change take effect" ++ nl) >>
         update_display
       else skip) >>
      reading iochannel (fun io =>
        if io then
          invoke (bt_io_set sec_level) >>
          match bt_io_set_ret E sec_level with
          | Some gerr =>
              sayf (fun w => nl ++ tag "SEC-LEVEL" w ++ ": "
                             ++ fmt_i (gerr_code gerr) ++ " "
                             ++ gerr_message gerr ++ nl) >>
              update_display
          | None => sec_level_report
          end
        else sec_level_report))).

Definition cmd_sec_level (argv : list string) : proc :=
  if argc argv <? 2 then sec_level_report
  else
    let level :=
      if strcasecmp_eq (arg 1 argv) "medium" then Some BT_IO_SEC_MEDIUM
      else if strcasecmp_eq (arg 1 argv) "high" then Some BT_IO_SEC_HIGH
      else if strcasecmp_eq (arg 1 argv) "low" then Some BT_IO_SEC_LOW
      else None in
    match level with
    | None =>
        sayf (fun w => nl ++ tag "SEC-LEVEL" w
                       ++ ": 257 Allowed values: low | medium | high" ++ nl) >>
        update_display
    | Some sec_level =>
        set_opt_sec_level (Some (arg 1 argv)) >> sec_level_apply sec_level
    end.

Definition exchange_mtu_cb (status : Z) (pdu : list Z) : proc :=
  if negb (status =? 0) then
    sayf (fun w => nl ++ tag "MTU" w ++ ": " ++ fmt_i status ++ " "
                   ++ att_ecode2str E status ++ nl) >>
    update_display
  else
    match dec_mtu_resp E pdu with
    | None =>
        sayf (fun w => nl ++ tag "MTU" w ++ ": " ++ fmt_i ATT_ECODE_INVALID_PDU
                       ++ " Protocol error" ++ nl) >>
        update_display
    | Some peer =>
        reading opt_mtu (fun own =>
          let mtu := to_uint16 (if peer <? own then peer else own) in
          invoke (g_attrib_set_mtu mtu) >>
          (if g_attrib_set_mtu_ret E mtu
           then sayf (fun w => nl ++ tag "MTU" w ++ ": 0" ++ nl)
           else sayf (fun w => nl ++ tag "MTU" w
                               ++ ": 129 Error exchanging MTU" ++ nl)) >>
          update_display)
    end.

Definition cmd_mtu (argv : list string) : proc :=
  reading conn_state (fun st =>
    if negb (state_eqb st STATE_CONNECTED) then
      say (nl ++ "MTU(0000): 256 Command failed: not connected." ++ nl) >>
      update_display
    else
      reading opt_psm (fun psm =>
        if negb (psm =? 0) then
          sayf (fun w => nl ++ tag "MTU" w
                         ++ ": 256 Command failed: operation is only available"
                         ++ " for LE transport." ++ nl) >>
          update_display
        else if argc argv <? 2 then
          sayf (fun w => nl ++ tag "MTU" w ++ ": 257 Usage: mtu <value>" ++ nl) >>
          update_display
        else
          reading opt_mtu (fun old =>
            if negb (old =? 0) then
              sayf (fun w => nl ++ tag "MTU" w ++ ": " ++ fmt_i ATT_ECODE_UNLIKELY
                             ++ " Command failed: MTU exchange can only occur"
                             ++ " once per connection." ++ nl) >>
              update_display
            else
              let r := strtoll (arg 1 argv) 0 in
              set_opt_mtu (to_int (value r)) >>
              reading opt_mtu (fun m =>
                if negb (errno r =? 0) || (m <? ATT_DEFAULT_LE_MTU) then
                  sayf (fun w => nl ++ tag "MTU" w ++ ": "
                                 ++ fmt_i ATT_ECODE_UNLIKELY
                                 ++ " Invalid value. Minimum MTU size is "
                                 ++ fmt_i ATT_DEFAULT_LE_MTU ++ nl) >>
                  update_display
                else invoke (gatt_exchange_mtu m CB_exchange_mtu))))).

Definition cmd_psm (argv : list string) : proc :=
  reading conn_state (fun st =>
    if state_eqb st STATE_CONNECTED then
      sayf (fun w => nl ++ tag "PSM" w ++ ": 256 Command failed: connected."
                     ++ nl) >>
      update_display
    else if argc argv <? 2 then
      say (nl ++ "PSM(0000): 257 Usage: psm <value>" ++ nl) >>
      update_display
    else
      set_opt_psm (to_int (value (strtoll (arg 1 argv) 0))) >>
      sayf (fun w => nl ++ "PSM(0000): " ++ fmt_i (opt_psm w) ++ nl) >>
      update_display).

(** *** The command table *)

Inductive handler :=
| Cmd_help | Cmd_exit | Cmd_connect | Cmd_disconnect | Cmd_primary
| Cmd_char | Cmd_char_desc | Cmd_read_hnd | Cmd_read_uuid | Cmd_char_write
| Cmd_sec_level | Cmd_mtu | Cmd_psm.

Record command :=
  { cmd : string; func : handler; params : string; desc : string }.

Definition commands : list command :=
  [ {| cmd := "help"; func := Cmd_help; params := EmptyString;
       desc := "Show this help" |};
    {| cmd := "exit"; func := Cmd_exit; params := EmptyString;
       desc := "Exit interactive mode" |};
    {| cmd := "quit"; func := Cmd_exit; params := EmptyString;
       desc := "Exit interactive mode" |};
    {| cmd := "connect"; func := Cmd_connect;
       params := "[address [address type]]";
       desc := "Connect to a remote device" |};
    {| cmd := "disconnect"; func := Cmd_disconnect; params := EmptyString;
       desc := "Disconnect from a remote device" |};
    {| cmd := "primary"; func := Cmd_primary; params := "[UUID]";
       desc := "Primary Service Discovery" |};
    {| cmd := "characteristics"; func := Cmd_char;
       params := "[start hnd [end hnd [UUID]]]";
       desc := "Characteristics Discovery" |};
    {| cmd := "char-desc"; func := Cmd_char_desc;
       params := "[start hnd] [end hnd]";
       desc := "Characteristics Descriptor Discovery" |};
    {| cmd := "char-read-hnd"; func := Cmd_read_hnd;
       params := "<handle> [offset]";
       desc := "Characteristics Value/Descriptor Read by handle" |};
    {| cmd := "char-read-uuid"; func := Cmd_read_uuid;
       params := "<UUID> [start hnd] [end hnd]";
       desc := "Characteristics Value/Descriptor Read by UUID" |};
    {| cmd := "char-write-req"; func := Cmd_char_write;
       params := "<handle> <new value>";
       desc := "Characteristic Value Write (Write Request)" |};
    {| cmd := "char-write-cmd"; func := Cmd_char_write;
       params := "<handle> <new value>";
       desc := "Characteristic Value Write (No response)" |};
    {| cmd := "sec-level"; func := Cmd_sec_level;
       params := "[low | medium | high]";
       desc := "Set security level. Default: low" |};
    {| cmd := "mtu"; func := Cmd_mtu; params := "<value>";
       desc := "Exchange MTU for GATT/ATT" |};
    {| cmd := "psm"; func := Cmd_psm; params := "<value>";
       desc := "Set PSM for GATT/ATT over BR" |} ].

(** [%-15s] and [%-30s]: left-justified in a field. *)
Definition fmt_left (n : nat) (s : string) : string :=
  s ++ spaces (n - String.length s)%nat.

Definition cmd_help (argv : list string) : proc :=
  for_each commands (fun c =>
    say (fmt_left 15 (cmd c) ++ " " ++ fmt_left 30 (params c) ++ " "
         ++ desc c ++ nl)).

(** [commands[i].func (argcp, argvp)]. *)
Definition run (h : handler) : list string -> proc :=
  match h with
  | Cmd_help => cmd_help
  | Cmd_exit => cmd_exit
  | Cmd_connect => cmd_connect
  | Cmd_disconnect => cmd_disconnect
  | Cmd_primary => cmd_primary
  | Cmd_char => cmd_char
  | Cmd_char_desc => cmd_char_desc
  | Cmd_read_hnd => cmd_read_hnd
  | Cmd_read_uuid => cmd_read_uuid
  | Cmd_char_write => cmd_char_write
  | Cmd_sec_level => cmd_sec_level
  | Cmd_mtu => cmd_mtu
  | Cmd_psm => cmd_psm
  end.

(** The first row of the table whose name matches, ignoring case. *)
Definition lookup (name : string) : option command :=
  find (fun c => strcasecmp_eq (cmd c) name) commands.

(** How a call of [parse_line] ends. *)
Inductive outcome :=
| Returns (w : world)
| Undefined.

(** [parse_line] ignores the result of [g_shell_parse_argv].  When the
    tokenizer fails it has stored nothing in [argvp], and the lookup loop
    reads [argvp[0]] through the uninitialised pointer: the behaviour is
    undefined.  A successful tokenization never yields an empty vector; were
    it to, [argvp[0]] would be the terminating NULL handed to [strcasecmp]. *)
Definition parse_line (line_read : option string) (w : world) : outcome :=
  match line_read with
  | None => Returns ((say nl >> cmd_exit []) w)
  | Some line =>
      let line := g_strstrip line in
      if String.eqb line EmptyString then Returns w
      else
        let w := readline_do (add_history line) w in
        match g_shell_parse_argv E line with
        | None => Undefined
        | Some [] => Undefined
        | Some ((name :: _) as argv) =>
            match lookup name with
            | Some c => Returns (run (func c) argv w)
            | None =>
                Returns (say (nl ++ "ERROR(15,256): " ++ name
                              ++ ": command not found" ++ nl) w)
            end
        end
  end.

End Program.

(** ** Tab completion *)

(** [strncmp (a, b, n) == 0]: the first [n] characters agree, or both
    strings end together before that. *)
Fixpoint strncmp_eq (a b : string) (n : nat) : bool :=
  match n with
  | O => true
  | S k =>
      match a, b with
      | EmptyString, EmptyString => true
      | String x a', String y b' => Ascii.eqb x y && strncmp_eq a' b' k
      | _, _ => false
      end
  end.

(** The two static locals of [completion_generator]. *)
Record completion_state := { index : nat; text_len : nat }.

(** The [while] loop of [completion_generator] over the rows from
    [commands[index]] on: the first name that [strncmp] accepts, and how far
    [index] has moved.  At the terminating row [index] stays where it is. *)
Fixpoint completion_scan (rows : list command) (text : string) (n : nat)
  : option string * nat :=
  match rows with
  | [] => (None, O)
  | c :: r =>
      if strncmp_eq (cmd c) text n then (Some (cmd c), 1%nat)
      else let '(found, k) := completion_scan r text n in (found, S k)
  end.

Definition completion_generator (text : string) (state : Z)
    (st : completion_state) : option string * completion_state :=
  let st := if state =? 0
            then {| index := O; text_len := String.length text |}
            else st in
  let '(found, k) := completion_scan (skipn (index st) commands) text
                       (text_len st) in
  (found, {| index := (index st + k)%nat; text_len := text_len st |}).

(** How [rl_completion_matches] drives a generator: state 0 first, then
    non-zero states, until it answers NULL.  The names it collects are the
    candidates readline completes from. *)
Fixpoint generate (fuel : nat) (text : string) (state : Z)
    (st : completion_state) : list string :=
  match fuel with
  | O => []
  | S f =>
      match completion_generator text state st with
      | (Some name, st') => name :: generate f text 1 st'
      | (None, _) => []
      end
  end.

(** [commands_completion]: candidates only for the first word of the line.
    The generator answers NULL after at most one call per table row. *)
Definition commands_completion (text : string) (start : Z)
    (st : completion_state) : option (list string) :=
  if start =? 0
  then Some (generate (S (List.length commands)) text 0 st)
  else None.

(** ** The event loop *)

(** What the main loop can deliver: a line (or end of input) from readline,
    the outcome of a connection attempt, a hang-up on the channel, an
    unsolicited PDU, the completion of a request, and the end of the loop
    (the tail of [interactive]). *)
Inductive event :=
| ev_parse_line (line_read : option string)
| ev_connect_cb (err : option GError)
| ev_channel_watcher
| ev_events_handler (pdu : list Z)
| ev_primary_all_cb (services : list gatt_primary) (status : Z)
| ev_primary_by_uuid_cb (ranges : list att_range) (status : Z)
| ev_char_cb (characteristics : list gatt_char) (status : Z)
| ev_char_desc_cb (status : Z) (pdu : list Z)
| ev_char_read_cb (status : Z) (pdu : list Z)
| ev_char_read_by_uuid_cb (status : Z) (pdu : list Z)
    (user_data : characteristic_data)
| ev_char_write_req_cb (status : Z) (pdu : list Z)
| ev_exchange_mtu_cb (status : Z) (pdu : list Z)
| ev_loop_exit.

Definition dispatch (E : collaborators) (ev : event) (w : world) : outcome :=
  match ev with
  | ev_parse_line l => parse_line E l w
  | ev_connect_cb err => Returns (connect_cb E err w)
  | ev_channel_watcher => Returns (channel_watcher w)
  | ev_events_handler pdu => Returns (events_handler E pdu w)
  | ev_primary_all_cb l st => Returns (primary_all_cb E l st w)
  | ev_primary_by_uuid_cb l st => Returns (primary_by_uuid_cb E l st w)
  | ev_char_cb l st => Returns (char_cb E l st w)
  | ev_char_desc_cb st pdu => Returns (char_desc_cb E st pdu w)
  | ev_char_read_cb st pdu => Returns (char_read_cb E st pdu w)
  | ev_char_read_by_uuid_cb st pdu cd =>
      Returns (char_read_by_uuid_cb E st pdu cd w)
  | ev_char_write_req_cb st pdu => Returns (char_write_req_cb E st pdu w)
  | ev_exchange_mtu_cb st pdu => Returns (exchange_mtu_cb E st pdu w)
  | ev_loop_exit =>
      Returns ((readline_do rl_callback_handler_remove >> cmd_disconnect []) w)
  end.

(** The globals as [interactive] sets them before entering the loop. *)
Definition initial (src dst dst_type : option string) (psm : Z) : world :=
  {| iochannel := false; attrib := false;
     opt_src := src; opt_dst := dst; opt_dst_type := dst_type;
     opt_sec_level := Some "low"; opt_psm := psm; opt_mtu := 0;
     conn_handle := 0; start := 0; end_ := 0;
     conn_state := STATE_DISCONNECTED; trace := [] |}.

(** One turn of the loop; the outside may answer differently every turn. *)
Definition step (w w' : world) : Prop :=
  exists E ev, dispatch E ev w = Returns w'.

Inductive reachable : world -> Prop :=
| reachable_initial src dst dst_type psm :
    reachable (initial src dst dst_type psm)
| reachable_step w w' : reachable w -> step w w' -> reachable w'.

(** Turns of the loop during which the connection stays up. *)
Inductive same_connection : world -> world -> Prop :=
| same_connection_refl w :
    conn_state w = STATE_CONNECTED -> same_connection w w
| same_connection_step w w' w'' :
    same_connection w w' -> step w' w'' ->
    conn_state w'' = STATE_CONNECTED -> same_connection w w''.

(** ** A test double for the outside *)

Module Fake.

Fixpoint count_quotes (s : string) : nat :=
  match s with
  | EmptyString => O
  | String c r => if code c =? 34 then S (count_quotes r) else count_quotes r
  end.

Fixpoint split_words (s : string) (cur : string) : list string :=
  match s with
  | EmptyString => if String.eqb cur EmptyString then [] else [cur]
  | String c r =>
      if isspace c
      then (if String.eqb cur EmptyString then split_words r EmptyString
            else cur :: split_words r EmptyString)
      else split_words r (cur ++ String c EmptyString)
  end.

(** Words separated by white space; a line with an odd number of double
    quotes does not tokenize. *)
Definition tokenize (line : string) : option (list string) :=
  if Nat.even (count_quotes line) then
    match split_words line EmptyString with
    | [] => None
    | ws => Some ws
    end
  else None.

(** Four hexadecimal digits make a 16-bit UUID. *)
Definition uuid_of_string (s : string) : option bt_uuid_t :=
  let r := strtoll s 16 in
  if (String.length s =? 4)%nat && String.eqb (endp r) EmptyString
  then Some (BT_UUID16 (value r)) else None.

Definition uuid_to_string (u : bt_uuid_t) : string :=
  match u with
  | BT_UUID16 v => fmt_04x v
  | BT_UUID32 v => fmt_04x (v / 65536) ++ fmt_04x v
  | BT_UUID128 _ => "uuid128"
  end.

Definition ecode2str (st : Z) : string :=
  if st =? ATT_ECODE_ATTR_NOT_FOUND then "Attribute not found" else "Error".

(** Two hexadecimal digits per byte. *)
Fixpoint data_from_string (s : string) : list Z :=
  match s with
  | String a (String b r) =>
      value (strtol (String a (String b EmptyString)) 16) :: data_from_string r
  | _ => []
  end.

Fixpoint chunks (fuel : nat) (n : nat) (l : list Z) : list (list Z) :=
  match fuel, l with
  | S k, _ :: _ => firstn n l :: chunks k n (skipn n l)
  | _, _ => []
  end.

(** Find-information response: opcode 5, a format byte, then entries of a
    handle and a 16-bit (format 1) or 128-bit UUID. *)
Definition find_info_resp (pdu : list Z) : option (Z * att_data_list) :=
  match pdu with
  | 5 :: format :: rest =>
      let n := if format =? 1 then 4%nat else 18%nat in
      Some (format, {| len := Z.of_nat n;
                       data := chunks (List.length rest) n rest |})
  | _ => None
  end.

(** Read-by-type response: opcode 9, the entry length, then the entries. *)
Definition read_by_type_resp (pdu : list Z) : option att_data_list :=
  match pdu with
  | 9 :: l :: rest =>
      if 2 <=? l then
        Some {| len := l;
                data := chunks (List.length rest) (Z.to_nat l) rest |}
      else None
  | _ => None
  end.

Definition read_resp (pdu : list Z) : option (list Z) :=
  match pdu with 11 :: v => Some v | _ => None end.

Definition mtu_resp (pdu : list Z) : option Z :=
  match pdu with [3; lo; hi] => Some (lo + 256 * hi) | _ => None end.

Definition is_pdu (op : Z) (pdu : list Z) : bool :=
  match pdu with [o] => o =? op | _ => false end.

(** A transport that connects and hands out [h] as the connection handle. *)
Definition transport (h : Z) : collaborators :=
  {| g_shell_parse_argv := tokenize;
     bt_string_to_uuid := uuid_of_string;
     bt_uuid_to_string := uuid_to_string;
     att_get_uuid16 := fun p => BT_UUID16 (att_get_u16 p);
     att_get_uuid128 := fun p => BT_UUID128 (firstn 16 p);
     att_ecode2str := ecode2str;
     gatt_attr_data_from_string := data_from_string;
     dec_find_info_resp := find_info_resp;
     dec_read_resp := read_resp;
     dec_read_by_type_resp := read_by_type_resp;
     dec_write_resp := is_pdu 19;
     dec_exec_write_resp := is_pdu 25;
     dec_mtu_resp := mtu_resp;
     enc_confirmation := [30];
     gatt_connect_ret := true;
     bt_io_get_ret := inr h;
     bt_io_set_ret := fun _ => None;
     g_attrib_set_mtu_ret := fun m => ATT_DEFAULT_LE_MTU <=? m |}.

Definition fake : collaborators := transport 64.

(** A transport on which [gatt_connect] fails at once. *)
Definition refusing : collaborators :=
  {| g_shell_parse_argv := tokenize;
     bt_string_to_uuid := uuid_of_string;
     bt_uuid_to_string := uuid_to_string;
     att_get_uuid16 := fun p => BT_UUID16 (att_get_u16 p);
     att_get_uuid128 := fun p => BT_UUID128 (firstn 16 p);
     att_ecode2str := ecode2str;
     gatt_attr_data_from_string := data_from_string;
     dec_find_info_resp := find_info_resp;
     dec_read_resp := read_resp;
     dec_read_by_type_resp := read_by_type_resp;
     dec_write_resp := is_pdu 19;
     dec_exec_write_resp := is_pdu 25;
     dec_mtu_resp := mtu_resp;
     enc_confirmation := [30];
     gatt_connect_ret := false;
     bt_io_get_ret := inl {| gerr_code := 1; gerr_message := "failed" |};
     bt_io_set_ret := fun _ => None;
     g_attrib_set_mtu_ret := fun m => ATT_DEFAULT_LE_MTU <=? m |}.

(** A transport that connects, but whose connection handle cannot be
    read. *)
Definition unreadable : collaborators :=
  {| g_shell_parse_argv := tokenize;
     bt_string_to_uuid := uuid_of_string;
     bt_uuid_to_string := uuid_to_string;
     att_get_uuid16 := fun p => BT_UUID16 (att_get_u16 p);
     att_get_uuid128 := fun p => BT_UUID128 (firstn 16 p);
     att_ecode2str := ecode2str;
     gatt_attr_data_from_string := data_from_string;
     dec_find_info_resp := find_info_resp;
     dec_read_resp := read_resp;
     dec_read_by_type_resp := read_by_type_resp;
     dec_write_resp := is_pdu 19;
     dec_exec_write_resp := is_pdu 25;
     dec_mtu_resp := mtu_resp;
     enc_confirmation := [30];
     gatt_connect_ret := true;
     bt_io_get_ret := inl {| gerr_code := 1; gerr_message := "no handle" |};
     bt_io_set_ret := fun _ => None;
     g_attrib_set_mtu_ret := fun m => ATT_DEFAULT_LE_MTU <=? m |}.

Definition peer : string := "00:11:22:33:44:55".

Definition fresh : world := initial None None None 0.

(** The world after one more turn of the loop. *)
Definition after (E : collaborators) (ev : event) (w : world) : world :=
  match dispatch E ev w with
  | Returns w' => w'
  | Undefined => w
  end.

Definition typed (line : string) : event := ev_parse_line (Some line).

(** After [connect 00:11:22:33:44:55], before and after the transport
    reports success. *)
Definition connecting : world := after fake (typed ("connect " ++ peer)) fresh.
Definition connected : world := after fake (ev_connect_cb None) connecting.

(** The same over BR/EDR: [psm 31] first. *)
Definition connected_br : world :=
  after fake (ev_connect_cb None)
    (after fake (typed ("connect " ++ peer)) (after fake (typed "psm 31") fresh)).

(** The link has come up, and its handle could not be read. *)
Definition handle_unread : world :=
  after unreadable (ev_connect_cb None)
    (after unreadable (typed ("connect " ++ peer)) fresh).


End Fake.
Import Fake.

(** * Vocabulary of the statements *)

(** [p] leaves the observation [f] of the globals as it was. *)
Definition preserves {A} (f : world -> A) (p : proc) : Prop :=
  forall w, f (p w) = f w.

(** The calls made so far. *)
Definition called (w : world) : list call := calls (trace w).

(** The connection state together with the connection handle. *)
Definition connection (w : world) : state * Z := (conn_state w, conn_handle w).


(** The whole effect of a call was to print [line] and refresh the display:
    no call into a library, no global changed. *)
Definition refused (line : string) (w w' : world) : Prop :=
  w' = (say line >> update_display) w /\ called w' = called w.

(** The level strings [cmd_sec_level] accepts. *)
Definition valid_level (s : string) : bool :=
  strcasecmp_eq s "medium" || strcasecmp_eq s "high" || strcasecmp_eq s "low".

(** [char-read-uuid 2a00] on the default range, and a first page with one
    match at handle 0x0010 whose value is aa bb. *)
Definition uuid_requested : world :=
  cmd_read_uuid fake ["char-read-uuid"; "2a00"] connected.

Definition uuid_char_data : characteristic_data :=
  {| cd_orig_start := 1; cd_start := 1; cd_end := 65535;
     cd_uuid := BT_UUID16 10752 |}.

Definition uuid_first_page : list Z := [9; 4; 16; 0; 170; 187].

Definition uuid_answered : world :=
  char_read_by_uuid_cb fake 0 uuid_first_page uuid_char_data uuid_requested.

(** [char-desc] on the default range; a first page with handles 1..5, then
    attribute-not-found for [6, 0xffff]. *)
Definition desc_requested : world := cmd_char_desc ["char-desc"] connected.

Definition desc_first_page : list Z :=
  [5; 1; 1; 0; 0; 40; 2; 0; 1; 40; 3; 0; 2; 40; 4; 0; 3; 40; 5; 0; 2; 41].

Definition desc_page_1 : world :=
  char_desc_cb fake 0 desc_first_page desc_requested.

Definition desc_finished : world :=
  char_desc_cb fake ATT_ECODE_ATTR_NOT_FOUND [] desc_page_1.

(** Attribute-not-found as the answer to the very first request. *)
Definition desc_empty : world :=
  char_desc_cb fake ATT_ECODE_ATTR_NOT_FOUND [] desc_requested.

(** The two configuration values [cmd_mtu] depends on. *)
Definition config (w : world) : Z * Z := (opt_psm w, opt_mtu w).

Definition once_per_connection (w : world) : string :=
  nl ++ tag "MTU" w ++ ": " ++ fmt_i ATT_ECODE_UNLIKELY
  ++ " Command failed: MTU exchange can only occur once per connection." ++ nl.

Definition below_minimum (w : world) : string :=
  nl ++ tag "MTU" w ++ ": " ++ fmt_i ATT_ECODE_UNLIKELY
  ++ " Invalid value. Minimum MTU size is " ++ fmt_i ATT_DEFAULT_LE_MTU ++ nl.

(** [mtu 100] on the connected LE client, and the peer's answer 50. *)
Definition mtu_requested : world := cmd_mtu ["mtu"; "100"] connected.


(** A value that overflows [long long] downwards: [strtoll] sets ERANGE and
    returns LLONG_MIN, which the conversion to [int] turns into 0. *)
Definition mtu_underflow : world :=
  cmd_mtu ["mtu"; "-9223372036854775809"] connected.

(** [mtu 5], below the minimum. *)
Definition mtu_rejected : world := cmd_mtu ["mtu"; "5"] connected.

(** A double quote, and a line with one that is never closed. *)
Definition dquote : string := String (ascii_of_nat 34) EmptyString.
Definition unbalanced : string := "primary " ++ dquote ++ "1800".

(** The rows a text completes to. *)
Definition completes (text : string) (c : command) : bool :=
  String.prefix text (cmd c).

(** [p] makes at most [n] calls into the libraries. *)
Definition issues (n : nat) (p : proc) : Prop :=
  forall w, exists l,
    called (p w) = (called w ++ l)%list /\ (List.length l <= n)%nat.

(** The most calls a command handler makes in one invocation. *)
Definition call_budget (h : handler) : nat :=
  match h with
  | Cmd_help | Cmd_psm => 0
  | Cmd_connect => 2
  | Cmd_disconnect => 3
  | _ => 1
  end%nat.

(** [p] appends to the trace, without a call into a library, and changes
    nothing else. *)
Definition only_prints (p : proc) : Prop :=
  forall w, exists t,
    p w = set_trace (trace w ++ t)%list w /\ calls t = [].

(** What a call has added to the trace. *)
Definition added (w w' : world) : list effect :=
  skipn (List.length (trace w)) (trace w').

(** A line of nothing but white space, as [g_strstrip] counts it. *)
Fixpoint blank (s : string) : bool :=
  match s with
  | EmptyString => true
  | String c r => g_ascii_isspace c && blank r
  end.

(** * Properties *)

(** ** Integer conversions and states *)

Lemma to_int_id z : INT_MIN <= z <= INT_MAX -> to_int z = z.
Proof.
  unfold to_int, INT_MIN, INT_MAX. intros H.
  rewrite Z.mod_small; lia.
Qed.

Lemma to_uint16_id z : 0 <= z < 65536 -> to_uint16 z = z.
Proof. intros H. unfold to_uint16. now rewrite Z.mod_small. Qed.

Lemma state_eqb_eq a b : state_eqb a b = true <-> a = b.
Proof. destruct a, b; simpl; split; congruence. Qed.

(** ** Framing: what a procedure leaves alone *)

Section Frame.

Context {A : Type} (f : world -> A).

Lemma preserves_skip : preserves f skip.
Proof. intro w. reflexivity. Qed.

Lemma preserves_seq p q :
  preserves f p -> preserves f q -> preserves f (p >> q).
Proof. intros Hp Hq w. unfold seq. now rewrite Hq, Hp. Qed.

Lemma preserves_reading {B} (get : world -> B) (k : B -> proc) :
  (forall b, preserves f (k b)) -> preserves f (reading get k).
Proof. intros H w. apply H. Qed.

Lemma preserves_for_each {B} (l : list B) (body : B -> proc) :
  (forall x, preserves f (body x)) -> preserves f (for_each l body).
Proof.
  intros H. induction l as [|x r IH]; simpl.
  - apply preserves_skip.
  - apply preserves_seq; auto.
Qed.

End Frame.

Lemma calls_app t u : calls (t ++ u)%list = (calls t ++ calls u)%list.
Proof.
  induction t as [|[s|r|c] t IH]; simpl; auto. now rewrite IH.
Qed.

Lemma say_quiet s : preserves called (say s).
Proof.
  intro w. unfold called, say, emit. simpl.
  rewrite calls_app. simpl. apply app_nil_r.
Qed.

Lemma readline_quiet r : preserves called (readline_do r).
Proof.
  intro w. unfold called, readline_do, emit. simpl.
  rewrite calls_app. simpl. apply app_nil_r.
Qed.

Create HintDb frame.
#[export] Hint Resolve say_quiet readline_quiet : frame.

(** Takes a goal [preserves f p] apart along the structure of [p]. *)
Ltac frame_step :=
  match goal with
  | |- preserves _ (_ >> _) => apply preserves_seq
  | |- preserves _ (reading _ _) => apply preserves_reading; intro
  | |- preserves _ (for_each _ _) => apply preserves_for_each; intro
  | |- preserves _ skip => apply preserves_skip
  | |- preserves _ (if ?b then _ else _) => destruct b
  | |- preserves _ (match ?x with _ => _ end) => destruct x
  | |- preserves _ _ => solve [auto with frame]
  | |- preserves _ _ => solve [intro; reflexivity]
  end.

Ltac frame := repeat frame_step.

(** The row loops only print. *)
Lemma char_desc_rows_frame {A} (f : world -> A) E format rows h :
  (forall s, preserves f (say s)) ->
  preserves f (fst (char_desc_rows E format rows h)).
Proof.
  intros Hsay. revert h.
  induction rows as [|value r IH]; intro h; simpl.
  - apply preserves_skip.
  - destruct (char_desc_rows E format r (att_get_u16 value)) as [p last] eqn:Hr.
    simpl. specialize (IH (att_get_u16 value)). rewrite Hr in IH.
    unfold sayf. frame; auto.
Qed.

Lemma char_read_by_uuid_rows_frame {A} (f : world -> A) l rows cd :
  (forall s, preserves f (say s)) ->
  preserves f (fst (char_read_by_uuid_rows l rows cd)).
Proof.
  intros Hsay. revert cd.
  induction rows as [|value r IH]; intro cd; simpl.
  - apply preserves_skip.
  - match goal with
    | |- context [char_read_by_uuid_rows l r ?c] =>
        specialize (IH c); destruct (char_read_by_uuid_rows l r c) as [p cd']
    end.
    simpl in *. unfold sayf. frame; auto.
Qed.

Ltac unfold_program :=
  unfold cmd_help, cmd_exit, cmd_primary, cmd_char, cmd_char_desc,
    cmd_read_hnd, cmd_read_uuid, cmd_char_write, cmd_sec_level,
    sec_level_apply, sec_level_report, cmd_mtu, cmd_psm, events_handler,
    primary_all_cb, primary_by_uuid_cb, char_cb, char_read_cb,
    char_write_req_cb, exchange_mtu_cb, sayf, update_display.


(** ** The connection state machine *)

Lemma set_state_connection st w :
  connection (set_state st w)
  = (st, if state_eqb st STATE_CONNECTED then conn_handle w else 0).
Proof. destruct st; reflexivity. Qed.

Lemma connect_cb_connection E err w :
  connection (connect_cb E err w)
  = match err with
    | Some _ => (STATE_DISCONNECTED, 0)
    | None =>
        match bt_io_get_ret E with
        | inl _ => (conn_state w, 0)
        | inr h => (STATE_CONNECTED, to_uint16 h)
        end
    end.
Proof.
  unfold connect_cb. destruct err as [e|].
  - reflexivity.
  - unfold seq. destruct (bt_io_get_ret E) as [gerr|h]; reflexivity.
Qed.

Lemma disconnect_io_connection w :
  connection (disconnect_io w)
  = if state_eqb (conn_state w) STATE_DISCONNECTED then connection w
    else (STATE_DISCONNECTED, 0).
Proof.
  unfold disconnect_io, reading.
  destruct (state_eqb (conn_state w) STATE_DISCONNECTED); reflexivity.
Qed.

Lemma disconnect_io_opt_mtu w :
  conn_state w <> STATE_DISCONNECTED -> opt_mtu (disconnect_io w) = 0.
Proof.
  intro H. unfold disconnect_io, reading.
  destruct (state_eqb (conn_state w) STATE_DISCONNECTED) eqn:Hs.
  - apply state_eqb_eq in Hs. contradiction.
  - reflexivity.
Qed.


Lemma cmd_connect_ignored E argv w :
  conn_state w <> STATE_DISCONNECTED -> cmd_connect E argv w = w.
Proof.
  intro H. unfold cmd_connect, reading.
  destruct (state_eqb (conn_state w) STATE_DISCONNECTED) eqn:Hs.
  - apply state_eqb_eq in Hs. contradiction.
  - reflexivity.
Qed.


Lemma char_desc_cb_frame {A} (f : world -> A) E st pdu :
  (forall e, preserves f (emit e)) -> preserves f (char_desc_cb E st pdu).
Proof.
  intro He. assert (Hsay : forall s, preserves f (say s)) by (intro; apply He).
  unfold char_desc_cb.
  destruct (negb (st =? 0)).
  - unfold sayf, update_display. frame; apply He.
  - destruct (dec_find_info_resp E pdu) as [[format list]|].
    + pose proof (char_desc_rows_frame f E format (data list) 65535 Hsay) as Hp.
      destruct (char_desc_rows E format (data list) 65535) as [p last].
      simpl in Hp. unfold sayf, update_display. frame; auto; apply He.
    + unfold sayf, update_display. frame; apply He.
Qed.

Lemma char_read_by_uuid_cb_frame {A} (f : world -> A) E st pdu cd :
  (forall e, preserves f (emit e)) ->
  preserves f (char_read_by_uuid_cb E st pdu cd).
Proof.
  intro He. assert (Hsay : forall s, preserves f (say s)) by (intro; apply He).
  unfold char_read_by_uuid_cb.
  destruct ((st =? ATT_ECODE_ATTR_NOT_FOUND)
            && negb (cd_start cd =? cd_orig_start cd)).
  - unfold update_display. frame; apply He.
  - destruct (negb (st =? 0)).
    + unfold sayf, update_display. frame; apply He.
    + destruct (dec_read_by_type_resp E pdu) as [list|].
      * pose proof (char_read_by_uuid_rows_frame f (len list) (data list) cd Hsay)
          as Hp.
        destruct (char_read_by_uuid_rows (len list) (data list) cd) as [p cd'].
        simpl in Hp. unfold sayf, update_display. frame; auto; apply He.
      * unfold update_display. frame; apply He.
Qed.



(** What one turn of the loop does to the connection: nothing; or it ends
    Connected; or it ends with the handle reset. *)
(** Reads an equation between two [connection] pairs as its two halves. *)
Ltac connection_eq H Hs Hh :=
  pose proof (f_equal fst H) as Hs; pose proof (f_equal snd H) as Hh;
  cbn [fst snd connection] in Hs, Hh.




Lemma reachable_after E ev w :
  reachable w -> dispatch E ev w <> Undefined -> reachable (after E ev w).
Proof.
  intros Hr Hd. unfold after.
  destruct (dispatch E ev w) as [w'|] eqn:H; [|congruence].
  apply (reachable_step w w' Hr). now exists E, ev.
Qed.

Lemma reachable_connecting : reachable connecting.
Proof.
  apply reachable_after; [apply reachable_initial | vm_compute; discriminate].
Qed.

Lemma reachable_connected : reachable connected.
Proof.
  apply reachable_after; [apply reachable_connecting | discriminate].
Qed.





(** A failure to read the handle is the third way a connect attempt ends:
    the link is up, [connect_cb] prints the error, and the client is left
    Connecting with handle 0, neither Disconnected nor Connected. *)
Lemma handle_unread_stays_connecting :
  reachable handle_unread
  /\ conn_state handle_unread = STATE_CONNECTING
  /\ conn_handle handle_unread = 0.
Proof.
  split; [|split; reflexivity].
  unfold handle_unread.
  apply reachable_after;
    [apply reachable_after; [apply reachable_initial|]|];
    vm_compute; discriminate.
Qed.

(** ** Commands in the wrong connection state *)

Lemma refused_intro line w w' :
  w' = (say line >> update_display) w -> refused line w w'.
Proof.
  intros ->. split; [reflexivity|].
  assert (H : preserves called (say line >> update_display))
    by (unfold update_display; frame).
  apply H.
Qed.

Lemma state_eqb_neq a b : a <> b -> state_eqb a b = false.
Proof.
  intro H. destruct (state_eqb a b) eqn:Hs; [|reflexivity].
  apply state_eqb_eq in Hs. contradiction.
Qed.

Lemma argc_nonempty argv : argv <> [] -> (argc argv =? 0) = false.
Proof.
  intro H. destruct argv as [|a r]; [contradiction|].
  apply Z.eqb_neq. unfold argc. simpl List.length. lia.
Qed.

(** C4 (as amended).  Each Connected-only command (primary, characteristics,
    char-desc, char-read-hnd, char-read-uuid, mtu) invoked while not
    Connected prints its fixed error line at once, calls no library function
    and changes no global; connect invoked outside Disconnected is not
    attempted and nothing at all is printed. *)
Theorem wrong_state_commands E argv w :
  argv <> [] ->
  (conn_state w <> STATE_CONNECTED ->
     refused (nl ++ "PRIMARY-ALL(0000): 256 Command failed: disconnected" ++ nl)
       w (cmd_primary E argv w)
     /\ refused (nl ++ "CHAR-DESC-END(0000): 256 disconnected" ++ nl)
          w (cmd_char E argv w)
     /\ refused (nl ++ "CHAR-DESC-END(0000): 256 Command failed: disconnected" ++ nl)
          w (cmd_char_desc argv w)
     /\ refused (nl ++ "CHAR-READ-HND(0000): 256 Command failed: disconnected" ++ nl)
          w (cmd_read_hnd argv w)
     /\ refused (nl ++ "CHAR-READ-UUID(0000): 256 Command failed: disconnected" ++ nl)
          w (cmd_read_uuid E argv w)
     /\ refused (nl ++ "MTU(0000): 256 Command failed: not connected." ++ nl)
          w (cmd_mtu argv w))
  /\ (conn_state w <> STATE_DISCONNECTED -> cmd_connect E argv w = w).
Proof.
  intros Hargv. split.
  - intro Hs. apply state_eqb_neq in Hs.
    repeat match goal with |- _ /\ _ => split end;
      apply refused_intro;
      unfold cmd_primary, cmd_char, cmd_char_desc, cmd_read_hnd,
        cmd_read_uuid, cmd_mtu, reading;
      rewrite Hs; try rewrite (argc_nonempty argv Hargv); reflexivity.
  - apply cmd_connect_ignored.
Qed.

Lemma wrong_state_commands_witness :
  refused (nl ++ "CHAR-READ-HND(0000): 256 Command failed: disconnected" ++ nl)
    connecting (cmd_read_hnd ["char-read-hnd"; "0010"] connecting)
  /\ cmd_connect fake ["connect"; peer] connecting = connecting.
Proof.
  assert (Hargv : ["char-read-hnd"; "0010"] <> @nil string) by discriminate.
  assert (Hs : conn_state connecting <> STATE_CONNECTED)
    by (vm_compute; discriminate).
  assert (Hd : conn_state connecting <> STATE_DISCONNECTED)
    by (vm_compute; discriminate).
  destruct (wrong_state_commands fake ["char-read-hnd"; "0010"] connecting Hargv)
    as [H1 _].
  destruct (H1 Hs) as (_ & _ & _ & H & _).
  split; [exact H|].
  assert (Hargv' : ["connect"; peer] <> @nil string) by discriminate.
  exact (proj2 (wrong_state_commands fake ["connect"; peer] connecting Hargv') Hd).
Defined.

(** C4, as stated, fails for connect: typed while Connected it is ignored
    without any report. *)
Lemma connect_while_connected_silent :
  conn_state connected = STATE_CONNECTED
  /\ cmd_connect fake ["connect"; peer] connected = connected
  /\ printed (trace (after fake (typed ("connect " ++ peer)) connected))
     = printed (trace connected).
Proof. split; [|split]; vm_compute; reflexivity. Qed.

(** ** Security level *)

Lemma sec_level_apply_opt_sec_level E lvl :
  preserves opt_sec_level (sec_level_apply E lvl).
Proof. unfold sec_level_apply, sec_level_report, sayf, update_display. frame. Qed.

(** An accepted level is stored before anything else is looked at. *)
Lemma cmd_sec_level_valid E argv w :
  2 <= argc argv -> valid_level (arg 1 argv) = true ->
  exists lvl,
    cmd_sec_level E argv w
    = (set_opt_sec_level (Some (arg 1 argv)) >> sec_level_apply E lvl) w.
Proof.
  intros Hargc Hvalid. unfold cmd_sec_level, valid_level in *.
  replace (argc argv <? 2) with false by (symmetry; apply Z.ltb_ge; lia).
  destruct (strcasecmp_eq (arg 1 argv) "medium"); [eexists; reflexivity|].
  destruct (strcasecmp_eq (arg 1 argv) "high"); [eexists; reflexivity|].
  destruct (strcasecmp_eq (arg 1 argv) "low"); [eexists; reflexivity|].
  discriminate.
Qed.

(** C3 (as amended).  A sec-level command with a valid level first stores
    the typed level as the configured one, whatever the state.  Then, with
    no PSM configured and the state not Connected, it prints the LE error
    line and applies nothing to the transport; with a PSM configured and the
    state not Disconnected, it prints the must-be-disconnected error line.
    An unknown level string is rejected with the allowed-values line and
    leaves the configuration and the transport alone. *)
Theorem sec_level_gates E argv w :
  2 <= argc argv ->
  (valid_level (arg 1 argv) = true ->
     opt_sec_level (cmd_sec_level E argv w) = Some (arg 1 argv)
     /\ (opt_psm w = 0 -> conn_state w <> STATE_CONNECTED ->
           cmd_sec_level E argv w
           = (set_opt_sec_level (Some (arg 1 argv)) >>
              say (nl ++ "SEC-LEVEL(0000): 256 It can only be done when "
                   ++ "connected for LE connections" ++ nl) >>
              update_display) w
           /\ called (cmd_sec_level E argv w) = called w)
     /\ (opt_psm w <> 0 -> conn_state w <> STATE_DISCONNECTED ->
           exists rest,
             trace (cmd_sec_level E argv w)
             = (trace w
                ++ [printf (nl ++ tag "SEC-LEVEL" w
                            ++ ": 256 It must be disconnected to this "
                            ++ "change take effect" ++ nl);
                    rl rl_forced_update_display]
                ++ rest)%list))
  /\ (valid_level (arg 1 argv) = false ->
        refused (nl ++ tag "SEC-LEVEL" w
                 ++ ": 257 Allowed values: low | medium | high" ++ nl)
          w (cmd_sec_level E argv w)).
Proof.
  intros Hargc. split.
  - intro Hvalid.
    destruct (cmd_sec_level_valid E argv w Hargc Hvalid) as [lvl Heq].
    rewrite Heq. split; [|split].
    + unfold seq. rewrite sec_level_apply_opt_sec_level. reflexivity.
    + intros Hpsm Hs. apply state_eqb_neq in Hs.
      assert (Hrun : (set_opt_sec_level (Some (arg 1 argv))
                      >> sec_level_apply E lvl) w
                     = (set_opt_sec_level (Some (arg 1 argv)) >>
                        say (nl ++ "SEC-LEVEL(0000): 256 It can only be done when "
                             ++ "connected for LE connections" ++ nl) >>
                        update_display) w).
      { unfold sec_level_apply, seq, reading.
        cbn [opt_psm conn_state set_opt_sec_level].
        rewrite Hpsm, Hs. reflexivity. }
      split; [exact Hrun|]. rewrite Hrun.
      assert (Hq : preserves called
                     (set_opt_sec_level (Some (arg 1 argv)) >>
                      say (nl ++ "SEC-LEVEL(0000): 256 It can only be done when "
                           ++ "connected for LE connections" ++ nl) >>
                      update_display))
        by (unfold update_display; frame).
      apply Hq.
    + intros Hpsm Hs. apply state_eqb_neq in Hs. apply Z.eqb_neq in Hpsm.
      unfold sec_level_apply, sec_level_report, seq, reading, sayf,
        update_display.
      cbn [opt_psm conn_state set_opt_sec_level]. rewrite Hpsm, Hs.
      cbn [negb andb].
      unfold reading, say, readline_do, invoke, emit.
      cbn [iochannel set_trace set_opt_sec_level trace].
      destruct (iochannel w).
      * destruct (bt_io_set_ret E lvl) as [gerr|];
          cbn [trace set_trace]; eexists;
          repeat rewrite <- app_assoc; reflexivity.
      * cbn [trace set_trace]; eexists;
          repeat rewrite <- app_assoc; reflexivity.
  - intro Hinvalid. apply refused_intro.
    unfold cmd_sec_level, valid_level in *.
    replace (argc argv <? 2) with false by (symmetry; apply Z.ltb_ge; lia).
    destruct (strcasecmp_eq (arg 1 argv) "medium"); [discriminate|].
    destruct (strcasecmp_eq (arg 1 argv) "high"); [discriminate|].
    destruct (strcasecmp_eq (arg 1 argv) "low"); [discriminate|].
    reflexivity.
Qed.

Lemma sec_level_gates_witness :
  opt_sec_level (cmd_sec_level fake ["sec-level"; "high"] fresh) = Some "high"
  /\ called (cmd_sec_level fake ["sec-level"; "high"] fresh) = called fresh
  /\ refused (nl ++ tag "SEC-LEVEL" fresh
              ++ ": 257 Allowed values: low | medium | high" ++ nl)
       fresh (cmd_sec_level fake ["sec-level"; "top"] fresh).
Proof.
  assert (Hargc : forall a, 2 <= argc ["sec-level"; a])
    by (intro a; unfold argc; simpl; lia).
  destruct (sec_level_gates fake ["sec-level"; "high"] fresh (Hargc "high"))
    as [Hvalid _].
  destruct (Hvalid eq_refl) as (Hstored & Hle & _).
  destruct (sec_level_gates fake ["sec-level"; "top"] fresh (Hargc "top"))
    as [_ Hinvalid].
  split; [exact Hstored|]. split.
  - apply Hle; [reflexivity | simpl; discriminate].
  - apply Hinvalid. reflexivity.
Defined.

(** C3, as stated, fails: a valid level typed in LE mode while Disconnected
    is answered with the error line, yet the configured level has changed
    from low to high. *)
Lemma sec_level_stored_when_rejected :
  opt_psm fresh = 0
  /\ conn_state fresh = STATE_DISCONNECTED
  /\ opt_sec_level fresh = Some "low"
  /\ printed (trace (cmd_sec_level fake ["sec-level"; "high"] fresh))
     = [nl ++ "SEC-LEVEL(0000): 256 It can only be done when connected"
        ++ " for LE connections" ++ nl]
  /\ opt_sec_level (cmd_sec_level fake ["sec-level"; "high"] fresh)
     = Some "high".
Proof. repeat split; vm_compute; reflexivity. Qed.

(** Over BR/EDR while Connected the error line is followed by the live
    change all the same: the branch that prints it does not return. *)
Lemma sec_level_br_connected_falls_through :
  opt_psm connected_br = 31
  /\ conn_state connected_br = STATE_CONNECTED
  /\ skipn (List.length (trace connected_br))
       (trace (cmd_sec_level fake ["sec-level"; "high"] connected_br))
     = [printf (nl ++ "SEC-LEVEL(0040): 256 It must be disconnected to this "
                ++ "change take effect" ++ nl);
        rl rl_forced_update_display;
        lib (bt_io_set BT_IO_SEC_HIGH);
        printf (nl ++ "SEC-LEVEL(0040): 0 high" ++ nl);
        rl rl_forced_update_display].
Proof. repeat split; vm_compute; reflexivity. Qed.

(** ** Read by UUID *)

Lemma emit_called_lib c w : called (emit (lib c) w) = (called w ++ [c])%list.
Proof. unfold called, emit. simpl. rewrite calls_app. reflexivity. Qed.

Lemma freed_called q cd w :
  preserves called q ->
  called ((q >> (update_display >> invoke (g_free cd))) w)
  = (called w ++ [g_free cd])%list.
Proof.
  intro Hq. unfold seq, invoke. rewrite emit_called_lib.
  unfold update_display. now rewrite readline_quiet, Hq.
Qed.

(** Whatever the response, [char_read_by_uuid_cb] calls nothing but
    [g_free] on its [char_data]: no further request is issued. *)
Lemma char_read_by_uuid_cb_calls E st pdu cd w :
  exists cd',
    called (char_read_by_uuid_cb E st pdu cd w) = (called w ++ [g_free cd'])%list.
Proof.
  unfold char_read_by_uuid_cb.
  destruct ((st =? ATT_ECODE_ATTR_NOT_FOUND)
            && negb (cd_start cd =? cd_orig_start cd)).
  - exists cd. apply (freed_called skip). apply preserves_skip.
  - destruct (negb (st =? 0)).
    + exists cd. apply freed_called. unfold sayf. frame.
    + destruct (dec_read_by_type_resp E pdu) as [list|].
      * pose proof (char_read_by_uuid_rows_frame called (len list) (data list)
                      cd say_quiet) as Hp.
        destruct (char_read_by_uuid_rows (len list) (data list) cd) as [p cd'].
        simpl in Hp. exists cd'.
        apply (freed_called
                 (p >> sayf (fun w => tag "CHAR-READ-UUID-END" w ++ ": 0" ++ nl))).
        unfold sayf. frame.
      * exists cd. apply (freed_called skip). apply preserves_skip.
Qed.

(** Attribute-not-found while the cursor still equals the original start is
    reported as an error. *)
Lemma char_read_by_uuid_cb_not_found_first E pdu cd w :
  cd_start cd = cd_orig_start cd ->
  char_read_by_uuid_cb E ATT_ECODE_ATTR_NOT_FOUND pdu cd w
  = (sayf (fun w => tag "CHAR-READ-UUID-END" w ++ ": "
                    ++ fmt_i ATT_ECODE_ATTR_NOT_FOUND ++ " "
                    ++ att_ecode2str E ATT_ECODE_ATTR_NOT_FOUND ++ nl) >>
     (update_display >> invoke (g_free cd))) w.
Proof.
  intro H. unfold char_read_by_uuid_cb. rewrite H, !Z.eqb_refl. reflexivity.
Qed.

(** Attribute-not-found once the cursor has moved ends the listing without
    an error line. *)
Lemma char_read_by_uuid_cb_not_found_later E pdu cd w :
  cd_start cd <> cd_orig_start cd ->
  char_read_by_uuid_cb E ATT_ECODE_ATTR_NOT_FOUND pdu cd w
  = (update_display >> invoke (g_free cd)) w.
Proof.
  intro H. unfold char_read_by_uuid_cb.
  apply Z.eqb_neq in H. rewrite H. reflexivity.
Qed.

(** C1 at its failing input.  Whatever the response, the callback's only
    call into a library is [g_free] on its record: it never issues a
    request.  For [char-read-uuid 2a00] the command requests [1, 0xffff];
    the first page, one match at handle 0x0010, is printed and closed with
    an END line of code 0; the cursor has moved to 0x0011, but the record is
    freed and no request for [0x0011, 0xffff] follows. *)
Theorem read_uuid_first_page_only :
  (forall E st pdu cd w,
     exists cd',
       called (char_read_by_uuid_cb E st pdu cd w)
       = (called w ++ [g_free cd'])%list)
  /\ skipn (List.length (trace connected)) (trace uuid_requested)
     = [lib (gatt_read_char_by_uuid 1 65535 (BT_UUID16 10752)
               (CB_char_read_by_uuid uuid_char_data))]
  /\ skipn (List.length (trace uuid_requested)) (trace uuid_answered)
     = [printf (nl ++ "CHAR-READ-UUID(0040): 0010 ");
        printf "aa "; printf "bb "; printf nl;
        printf ("CHAR-READ-UUID-END(0040): 0" ++ nl);
        rl rl_forced_update_display;
        lib (g_free {| cd_orig_start := 1; cd_start := 17; cd_end := 65535;
                       cd_uuid := BT_UUID16 10752 |})].
Proof.
  split; [|split].
  - exact char_read_by_uuid_cb_calls.
  - vm_compute. reflexivity.
  - vm_compute. reflexivity.
Qed.

(** ** Descriptor discovery *)

Lemma char_desc_rows_last E format rows h0 :
  rows <> [] ->
  snd (char_desc_rows E format rows h0) = att_get_u16 (last rows []).
Proof.
  revert h0. induction rows as [|value r IH]; intros h0 Hne; [contradiction|].
  simpl char_desc_rows.
  destruct r as [|value' r'].
  - reflexivity.
  - assert (Hr : value' :: r' <> []) by discriminate.
    specialize (IH (att_get_u16 value) Hr).
    destruct (char_desc_rows E format (value' :: r') (att_get_u16 value))
      as [p l].
    simpl in IH. simpl snd. rewrite IH. reflexivity.
Qed.

Lemma say_end s : preserves end_ (say s).
Proof. intro w. reflexivity. Qed.

(** A successfully decoded page whose last handle is neither 0xffff nor at
    or beyond the end handle is followed by exactly one request. *)
Lemma char_desc_cb_next_page E pdu format list w :
  dec_find_info_resp E pdu = Some (format, list) ->
  data list <> [] ->
  att_get_u16 (last (data list) []) <> 65535 ->
  att_get_u16 (last (data list) []) < end_ w ->
  called (char_desc_cb E 0 pdu w)
  = (called w
     ++ [gatt_find_info (att_get_u16 (last (data list) []) + 1) (end_ w)
           CB_char_desc])%list.
Proof.
  intros Hdec Hne Hnot Hlt. unfold char_desc_cb.
  change (negb (0 =? 0)) with false. cbv iota. rewrite Hdec.
  pose proof (char_desc_rows_last E format (data list) 65535 Hne) as Hlast.
  pose proof (char_desc_rows_frame called E format (data list) 65535 say_quiet)
    as Hcalled.
  pose proof (char_desc_rows_frame end_ E format (data list) 65535 say_end)
    as Hend.
  destruct (char_desc_rows E format (data list) 65535) as [p h].
  simpl in Hlast, Hcalled, Hend. subst h.
  set (q := say nl >> p
            >> sayf (fun w => tag "CHAR-DESC-END" w ++ ": 0" ++ nl)).
  assert (Hq1 : preserves called q) by (unfold q, sayf; frame).
  assert (Hq2 : preserves end_ q) by (unfold q, sayf; frame).
  change (called (reading end_ (fun e =>
            if negb (att_get_u16 (last (data list) []) =? 65535)
               && (att_get_u16 (last (data list) []) <? e)
            then invoke (gatt_find_info
                           (att_get_u16 (last (data list) []) + 1) e
                           CB_char_desc)
            else update_display) (q w))
          = (called w
             ++ [gatt_find_info (att_get_u16 (last (data list) []) + 1)
                   (end_ w) CB_char_desc])%list).
  unfold reading. rewrite Hq2.
  apply Z.eqb_neq in Hnot. apply Z.ltb_lt in Hlt. rewrite Hnot, Hlt.
  cbn [negb andb]. unfold invoke. rewrite emit_called_lib, Hq1. reflexivity.
Qed.

(** Any non-zero status, attribute-not-found included, ends the listing
    with an END line that carries the status; nothing is requested. *)
Lemma char_desc_cb_status E st pdu w :
  st <> 0 ->
  refused (tag "CHAR-DESC-END" w ++ ": " ++ fmt_i st ++ " "
           ++ att_ecode2str E st ++ nl)
    w (char_desc_cb E st pdu w).
Proof.
  intro H. apply refused_intro. unfold char_desc_cb.
  apply Z.eqb_neq in H. rewrite H. reflexivity.
Qed.

(** C2 (as amended).  After each successfully decoded response page whose
    last handle is below the requested end handle and is not 0xffff, the
    handler issues exactly one new find-information request for
    [lastHandle+1, end] with the same callback.  A response with a non-zero
    status, attribute-not-found included and on the first request as on a
    later one, is reported by a CHAR-DESC-END line carrying that status and
    its text, and nothing more is requested.  With handles 1..5 and then
    attribute-not-found for [6, 0xffff], exactly two requests are issued;
    the output has one CHAR-DESC-END line of code 0, after the first page,
    and ends with a CHAR-DESC-END line of code 10. *)
Theorem char_desc_pagination :
  (forall E pdu format list w,
     dec_find_info_resp E pdu = Some (format, list) ->
     data list <> [] ->
     att_get_u16 (last (data list) []) <> 65535 ->
     att_get_u16 (last (data list) []) < end_ w ->
     called (char_desc_cb E 0 pdu w)
     = (called w
        ++ [gatt_find_info (att_get_u16 (last (data list) []) + 1) (end_ w)
              CB_char_desc])%list)
  /\ (forall E st pdu w,
        st <> 0 ->
        refused (tag "CHAR-DESC-END" w ++ ": " ++ fmt_i st ++ " "
                 ++ att_ecode2str E st ++ nl)
          w (char_desc_cb E st pdu w))
  /\ skipn (List.length (called connected)) (called desc_finished)
     = [gatt_find_info 1 65535 CB_char_desc;
        gatt_find_info 6 65535 CB_char_desc]
  /\ skipn (List.length (printed (trace connected)))
       (printed (trace desc_finished))
     = [nl;
        "CHAR-DESC(0040): 0001 2800" ++ nl;
        "CHAR-DESC(0040): 0002 2801" ++ nl;
        "CHAR-DESC(0040): 0003 2802" ++ nl;
        "CHAR-DESC(0040): 0004 2803" ++ nl;
        "CHAR-DESC(0040): 0005 2902" ++ nl;
        "CHAR-DESC-END(0040): 0" ++ nl;
        "CHAR-DESC-END(0040): 10 Attribute not found" ++ nl].
Proof.
  split; [|split; [|split]].
  - exact char_desc_cb_next_page.
  - exact char_desc_cb_status.
  - vm_compute. reflexivity.
  - vm_compute. reflexivity.
Qed.

Lemma char_desc_pagination_witness :
  called desc_page_1
  = (called desc_requested
     ++ [gatt_find_info 6 65535 CB_char_desc])%list
  /\ refused ("CHAR-DESC-END(0040): 10 Attribute not found" ++ nl)
       desc_page_1 desc_finished.
Proof.
  destruct char_desc_pagination as (Hnext & Hstatus & _).
  split.
  - apply (Hnext fake desc_first_page 1
             {| len := 4;
                data := [[1; 0; 0; 40]; [2; 0; 1; 40]; [3; 0; 2; 40];
                         [4; 0; 3; 40]; [5; 0; 2; 41]] |}
             desc_requested).
    + reflexivity.
    + simpl. discriminate.
    + vm_compute. discriminate.
    + vm_compute. reflexivity.
  - apply (Hstatus fake ATT_ECODE_ATTR_NOT_FOUND [] desc_page_1).
    vm_compute. discriminate.
Defined.

(** C2, as stated, fails: the listing of the scenario is closed by an END
    line of code 10, and attribute-not-found on the very first request is
    reported with code 10 as well. *)
Lemma char_desc_not_found_is_reported :
  last (printed (trace desc_finished)) EmptyString
  = "CHAR-DESC-END(0040): 10 Attribute not found" ++ nl
  /\ skipn (List.length (trace desc_requested))
       (trace desc_empty)
     = [printf ("CHAR-DESC-END(0040): 10 Attribute not found" ++ nl);
        rl rl_forced_update_display].
Proof. split; vm_compute; reflexivity. Qed.

(** ** MTU exchange *)

Lemma emit_config e : preserves config (emit e).
Proof. intro w. reflexivity. Qed.

Lemma run_config E h argv :
  h <> Cmd_disconnect -> h <> Cmd_mtu -> h <> Cmd_psm ->
  preserves config (run E h argv).
Proof.
  intros Hd Hm Hp. destruct h; try congruence; simpl;
    unfold_program; unfold cmd_connect, set_state; frame.
Qed.

Lemma callbacks_config E :
  (forall err, preserves config (connect_cb E err))
  /\ (forall pdu, preserves config (events_handler E pdu))
  /\ (forall l st, preserves config (primary_all_cb E l st))
  /\ (forall l st, preserves config (primary_by_uuid_cb E l st))
  /\ (forall l st, preserves config (char_cb E l st))
  /\ (forall st pdu, preserves config (char_read_cb E st pdu))
  /\ (forall st pdu, preserves config (char_write_req_cb E st pdu))
  /\ (forall st pdu, preserves config (exchange_mtu_cb E st pdu)).
Proof.
  repeat split; intros; unfold_program; unfold connect_cb, set_state; frame.
Qed.

(** With a non-zero [opt_mtu], a connected LE client answers every mtu
    command that has its argument with the once-per-connection error. *)
Lemma cmd_mtu_once argv w :
  conn_state w = STATE_CONNECTED -> opt_psm w = 0 -> 2 <= argc argv ->
  opt_mtu w <> 0 ->
  refused (once_per_connection w) w (cmd_mtu argv w).
Proof.
  intros Hs Hpsm Hargc Hmtu. apply refused_intro.
  assert (Hargc' : (argc argv <? 2) = false) by (apply Z.ltb_ge; lia).
  apply Z.eqb_neq in Hmtu.
  unfold cmd_mtu, reading. rewrite Hs. cbn [state_eqb negb].
  rewrite Hpsm. cbn [Z.eqb negb]. rewrite Hargc', Hmtu. reflexivity.
Qed.

(** [cmd_mtu] never touches the PSM, and leaves a non-zero [opt_mtu]
    as it is. *)
Lemma cmd_mtu_config argv w :
  opt_mtu w <> 0 -> config (cmd_mtu argv w) = config w.
Proof.
  intro Hmtu. apply Z.eqb_neq in Hmtu. unfold cmd_mtu, reading.
  destruct (negb (state_eqb (conn_state w) STATE_CONNECTED)); [reflexivity|].
  cbv beta.
  destruct (negb (opt_psm w =? 0)); [reflexivity|].
  destruct (argc argv <? 2); [reflexivity|].
  cbv beta. rewrite Hmtu. reflexivity.
Qed.

Lemma cmd_psm_config argv w :
  conn_state w = STATE_CONNECTED -> config (cmd_psm argv w) = config w.
Proof. intro Hs. unfold cmd_psm, reading. rewrite Hs. reflexivity. Qed.

Lemma disconnect_io_state w : conn_state (disconnect_io w) = STATE_DISCONNECTED.
Proof.
  pose proof (disconnect_io_connection w) as H.
  destruct (state_eqb (conn_state w) STATE_DISCONNECTED) eqn:Hs;
    connection_eq H H1 H2.
  - apply state_eqb_eq in Hs. congruence.
  - exact H1.
Qed.

(** While the connection stays up, one turn of the loop changes neither the
    PSM nor a non-zero [opt_mtu]. *)
Lemma step_config w w' :
  step w w' ->
  conn_state w = STATE_CONNECTED -> conn_state w' = STATE_CONNECTED ->
  opt_mtu w <> 0 -> config w' = config w.
Proof.
  intros (E & ev & H) Hs Hs' Hmtu.
  destruct (callbacks_config E) as (C0 & C1 & C2 & C3 & C4 & C5 & C6 & C7).
  destruct ev; simpl in H; try (injection H as <-).
  - unfold parse_line in H. destruct line_read as [line|].
    + destruct (String.eqb (g_strstrip line) EmptyString);
        [injection H as <-; reflexivity|].
      destruct (g_shell_parse_argv E (g_strstrip line)) as [[|name argv]|];
        try discriminate.
      destruct (lookup name) as [c|]; injection H as <-; [|reflexivity].
      destruct (func c) eqn:Hf;
        try (transitivity
               (config (readline_do (add_history (g_strstrip line)) w));
             [apply run_config; congruence | reflexivity]).
      * simpl in Hs'. unfold cmd_disconnect in Hs'.
        rewrite disconnect_io_state in Hs'. discriminate.
      * simpl. rewrite cmd_mtu_config; [reflexivity | exact Hmtu].
      * simpl. rewrite cmd_psm_config; [reflexivity | exact Hs].
    + injection H as <-. reflexivity.
  - apply C0.
  - unfold channel_watcher, seq, update_display, readline_do, emit in Hs'.
    cbn [conn_state set_trace] in Hs'.
    rewrite disconnect_io_state in Hs'. discriminate.
  - apply C1.
  - apply C2.
  - apply C3.
  - apply C4.
  - apply (char_desc_cb_frame config E status pdu emit_config).
  - apply C5.
  - apply (char_read_by_uuid_cb_frame config E status pdu user_data emit_config).
  - apply C6.
  - apply C7.
  - unfold seq, cmd_disconnect in Hs'.
    rewrite disconnect_io_state in Hs'. discriminate.
Qed.

Lemma same_connection_connected w w' :
  same_connection w w' -> conn_state w' = STATE_CONNECTED.
Proof. induction 1; assumption. Qed.

(** On one connection a non-zero [opt_mtu] stays what it is. *)
Lemma same_connection_config w w' :
  same_connection w w' -> opt_mtu w <> 0 -> config w' = config w.
Proof.
  induction 1 as [w Hs | w w' w'' Hsame IH Hstep Hs'']; intro Hmtu.
  - reflexivity.
  - specialize (IH Hmtu).
    assert (Hmtu' : opt_mtu w' <> 0).
    { pose proof (f_equal snd IH) as H2. cbn [snd config] in H2. congruence. }
    rewrite <- IH. apply step_config; auto.
    eapply same_connection_connected; eauto.
Qed.

(** Once [opt_mtu] is non-zero, every later mtu command on that connection
    is refused, and only a disconnect clears it. *)
Lemma mtu_locked w w' argv :
  same_connection w w' -> opt_psm w = 0 -> opt_mtu w <> 0 ->
  2 <= argc argv ->
  opt_mtu w' = opt_mtu w
  /\ refused (once_per_connection w') w' (cmd_mtu argv w')
  /\ opt_mtu (disconnect_io w') = 0.
Proof.
  intros Hsame Hpsm Hmtu Hargc.
  pose proof (same_connection_connected w w' Hsame) as Hs'.
  pose proof (same_connection_config w w' Hsame Hmtu) as Hc.
  pose proof (f_equal fst Hc) as H1. pose proof (f_equal snd Hc) as H2.
  cbn [fst snd config] in H1, H2.
  split; [exact H2|]. split.
  - apply cmd_mtu_once; congruence.
  - apply disconnect_io_opt_mtu. congruence.
Qed.

Lemma cmd_mtu_rejected argv w :
  conn_state w = STATE_CONNECTED -> opt_psm w = 0 -> 2 <= argc argv ->
  opt_mtu w = 0 ->
  errno (strtoll (arg 1 argv) 0) <> 0
  \/ to_int (value (strtoll (arg 1 argv) 0)) < ATT_DEFAULT_LE_MTU ->
  cmd_mtu argv w
  = (set_opt_mtu (to_int (value (strtoll (arg 1 argv) 0))) >>
     say (below_minimum w) >> update_display) w
  /\ called (cmd_mtu argv w) = called w.
Proof.
  intros Hs Hpsm Hargc Hmtu Hbad.
  assert (Hargc' : (argc argv <? 2) = false) by (apply Z.ltb_ge; lia).
  assert (Hcond : negb (errno (strtoll (arg 1 argv) 0) =? 0)
                  || (to_int (value (strtoll (arg 1 argv) 0))
                      <? ATT_DEFAULT_LE_MTU) = true).
  { destruct Hbad as [He|Hlt].
    - apply Z.eqb_neq in He. rewrite He. reflexivity.
    - apply Z.ltb_lt in Hlt. rewrite Hlt. apply orb_true_r. }
  assert (Heq : cmd_mtu argv w
                = (set_opt_mtu (to_int (value (strtoll (arg 1 argv) 0))) >>
                   say (below_minimum w) >> update_display) w).
  { unfold cmd_mtu, reading. rewrite Hs. cbn [state_eqb negb].
    rewrite Hpsm. cbn [Z.eqb negb]. rewrite Hargc', Hmtu. cbn [Z.eqb negb].
    unfold seq at 1. unfold reading. cbn [opt_mtu set_opt_mtu].
    rewrite Hcond. reflexivity. }
  split; [exact Heq|]. rewrite Heq.
  assert (Hq : preserves called
                 (set_opt_mtu (to_int (value (strtoll (arg 1 argv) 0))) >>
                  say (below_minimum w) >> update_display))
    by (unfold update_display; frame).
  apply Hq.
Qed.




Lemma argc_2 a b : 2 <= argc [a; b].
Proof. unfold argc. simpl. lia. Qed.


(** C10 (as amended).  On a connected LE client whose [opt_mtu] is 0, an
    mtu command whose value fails validation (errno set, or below the
    minimum) and whose conversion to [int] is not 0 leaves that rejected
    value in [opt_mtu] without issuing any request; from then on, for as
    long as the connection stays up, every mtu command is refused with the
    once-per-connection error, and a disconnect resets [opt_mtu] to 0. *)
Theorem mtu_rejected_value_locks argv w :
  conn_state w = STATE_CONNECTED -> opt_psm w = 0 -> 2 <= argc argv ->
  opt_mtu w = 0 ->
  let r := strtoll (arg 1 argv) 0 in
  let m := to_int (value r) in
  errno r <> 0 \/ m < ATT_DEFAULT_LE_MTU ->
  m <> 0 ->
  opt_mtu (cmd_mtu argv w) = m
  /\ called (cmd_mtu argv w) = called w
  /\ forall w' argv',
       same_connection (cmd_mtu argv w) w' -> 2 <= argc argv' ->
       refused (once_per_connection w') w' (cmd_mtu argv' w')
       /\ opt_mtu (disconnect_io w') = 0.
Proof.
  intros Hs Hpsm Hargc Hmtu r m Hbad Hm.
  destruct (cmd_mtu_rejected argv w Hs Hpsm Hargc Hmtu Hbad) as (Heq & Hcalled).
  fold r in Heq. fold m in Heq.
  split; [rewrite Heq; reflexivity|]. split; [exact Hcalled|].
  intros w' argv' Hsame Hargc'. rewrite Heq in Hsame.
  destruct (mtu_locked _ w' argv' Hsame Hpsm Hm Hargc') as (_ & Honce & Hreset).
  split; assumption.
Qed.

Lemma mtu_rejected_value_locks_witness :
  opt_mtu mtu_rejected = 5
  /\ called mtu_rejected = called connected
  /\ refused (once_per_connection mtu_rejected)
       mtu_rejected (cmd_mtu ["mtu"; "100"] mtu_rejected)
  /\ opt_mtu (disconnect_io mtu_rejected) = 0.
Proof.
  assert (Hs : conn_state connected = STATE_CONNECTED) by reflexivity.
  assert (Hpsm : opt_psm connected = 0) by reflexivity.
  assert (Hmtu : opt_mtu connected = 0) by reflexivity.
  assert (Hbad : errno (strtoll (arg 1 ["mtu"; "5"]) 0) <> 0
                 \/ to_int (value (strtoll (arg 1 ["mtu"; "5"]) 0))
                    < ATT_DEFAULT_LE_MTU)
    by (right; vm_compute; reflexivity).
  assert (Hm : to_int (value (strtoll (arg 1 ["mtu"; "5"]) 0)) <> 0)
    by (vm_compute; discriminate).
  destruct (mtu_rejected_value_locks ["mtu"; "5"] connected Hs Hpsm
              (argc_2 _ _) Hmtu Hbad Hm) as (Hstored & Hquiet & Hlater).
  split; [exact Hstored|]. split; [exact Hquiet|].
  apply (Hlater mtu_rejected ["mtu"; "100"]).
  - apply same_connection_refl. reflexivity.
  - apply argc_2.
Defined.

(** C10, as stated, fails for a value that sets errno yet converts to 0:
    the command is rejected, [opt_mtu] is still 0, and the next mtu command
    on the same connection is accepted and sent. *)
Lemma mtu_underflow_does_not_lock :
  errno (strtoll "-9223372036854775809" 0) = ERANGE
  /\ skipn (List.length (trace connected)) (trace mtu_underflow)
     = [printf (nl ++ "MTU(0040): 14 Invalid value. Minimum MTU size is 23"
                ++ nl);
        rl rl_forced_update_display]
  /\ opt_mtu mtu_underflow = 0
  /\ same_connection mtu_underflow mtu_underflow
  /\ called (cmd_mtu ["mtu"; "100"] mtu_underflow)
     = (called mtu_underflow
        ++ [gatt_exchange_mtu 100 CB_exchange_mtu])%list.
Proof.
  split; [reflexivity|]. split; [vm_compute; reflexivity|].
  split; [reflexivity|]. split.
  - apply same_connection_refl. reflexivity.
  - vm_compute. reflexivity.
Qed.

(** ** The dispatcher *)

(** C7 at its failing inputs.  Whenever the tokenizer fails on a line that
    is not blank, [parse_line] goes on to read [argvp[0]] through a pointer
    nothing was stored in: no parse error is printed, and what happens next
    is undefined. *)
Theorem parse_line_tokenize_failure E line w :
  g_strstrip line <> EmptyString ->
  g_shell_parse_argv E (g_strstrip line) = None ->
  parse_line E (Some line) w = Undefined.
Proof.
  intros Hne Hfail. unfold parse_line.
  destruct (String.eqb (g_strstrip line) EmptyString) eqn:Hb.
  - apply String.eqb_eq in Hb. contradiction.
  - rewrite Hfail. reflexivity.
Qed.

Lemma parse_line_tokenize_failure_witness :
  parse_line fake (Some unbalanced) fresh = Undefined.
Proof.
  apply (parse_line_tokenize_failure fake unbalanced fresh).
  - vm_compute. discriminate.
  - vm_compute. reflexivity.
Defined.

(** A line that tokenizes is dispatched, whatever its case, or answered
    with command-not-found; the loop goes on. *)
Lemma parse_line_returns E line w name argv :
  g_strstrip line <> EmptyString ->
  g_shell_parse_argv E (g_strstrip line) = Some (name :: argv) ->
  exists w', parse_line E (Some line) w = Returns w'.
Proof.
  intros Hne Htok. unfold parse_line.
  destruct (String.eqb (g_strstrip line) EmptyString); [eexists; reflexivity|].
  rewrite Htok. destruct (lookup name); eexists; reflexivity.
Qed.

Lemma lookup_ignores_case :
  lookup "HELP" = lookup "help" /\ lookup "Help" = lookup "help"
  /\ option_map func (lookup "help") = Some Cmd_help.
Proof. repeat split; reflexivity. Qed.

(** ** Handle arguments *)

(** Anything left over after the hexadecimal digits makes [strtohandle]
    fail. *)
Lemma strtohandle_trailing src :
  endp (strtoll src 16) <> EmptyString -> strtohandle src = - EINVAL.
Proof.
  intro H. unfold strtohandle.
  destruct (String.eqb (endp (strtoll src 16)) EmptyString) eqn:Hb.
  - apply String.eqb_eq in Hb. contradiction.
  - cbn [negb]. rewrite orb_true_r. reflexivity.
Qed.

(** A handle [strtohandle] accepts was read to the end of the string and
    fitted [long long]. *)
Lemma strtohandle_accepts src :
  0 <= strtohandle src ->
  endp (strtoll src 16) = EmptyString /\ errno (strtoll src 16) = 0
  /\ strtohandle src = to_int (value (strtoll src 16)).
Proof.
  unfold strtohandle.
  destruct (errno (strtoll src 16) =? 0) eqn:He;
    destruct (String.eqb (endp (strtoll src 16)) EmptyString) eqn:Hb;
    cbn [negb orb]; unfold EINVAL; try lia.
  intros _. apply Z.eqb_eq in He. apply String.eqb_eq in Hb. auto.
Qed.

Lemma strtohandle_examples :
  strtohandle "zz" = -22 /\ strtohandle "0010" = 16
  /\ strtohandle "10zz" = -22 /\ strtohandle "ffff" = 65535.
Proof. repeat split; reflexivity. Qed.

(** [char-read-hnd] with a handle that does not parse prints the error
    line and dispatches nothing; with a handle alone it reads at offset 0. *)
Lemma cmd_read_hnd_handle name h w :
  conn_state w = STATE_CONNECTED ->
  (strtohandle h < 0 ->
     refused (nl ++ tag "CHAR-READ-HND" w ++ ": 1 Invalid handle: " ++ h ++ nl)
       w (cmd_read_hnd [name; h] w))
  /\ (0 <= strtohandle h ->
        cmd_read_hnd [name; h] w
        = invoke (gatt_read_char (strtohandle h) 0 CB_char_read) w).
Proof.
  intro Hs. split; intro Hh.
  - apply refused_intro. unfold cmd_read_hnd, reading. rewrite Hs.
    cbn [state_eqb negb arg nth]. change (argc [name; h]) with 2.
    apply Z.ltb_lt in Hh. rewrite Hh. reflexivity.
  - unfold cmd_read_hnd, reading. rewrite Hs.
    cbn [state_eqb negb arg nth]. change (argc [name; h]) with 2.
    apply Z.ltb_ge in Hh. rewrite Hh. reflexivity.
Qed.

(** [char-desc] and [char-read-uuid] compare the end handle with the start
    handle before they request anything. *)
Lemma cmd_char_desc_range name s e w :
  conn_state w = STATE_CONNECTED ->
  0 <= strtohandle s -> strtohandle e < strtohandle s ->
  called (cmd_char_desc [name; s; e] w) = called w.
Proof.
  intros Hs H0 Hlt. apply Z.ltb_ge in H0. apply Z.ltb_lt in Hlt.
  unfold cmd_char_desc, reading. rewrite Hs.
  cbn [state_eqb negb arg nth].
  change (argc [name; s; e]) with 3.
  change (1 <? 3) with true. change (2 <? 3) with true. cbv iota.
  unfold seq at 1. unfold reading. cbn [start set_start andb].
  rewrite H0.
  unfold seq at 1. unfold reading. cbn [end_ set_end].
  rewrite Hlt.
  assert (Hq : forall f, preserves called
            (set_start (strtohandle s) >> set_end (strtohandle e)
             >> sayf f >> update_display))
    by (intro f; unfold sayf, update_display; frame).
  apply Hq.
Qed.

Lemma cmd_read_uuid_range E name u uuid s e w :
  conn_state w = STATE_CONNECTED ->
  bt_string_to_uuid E u = Some uuid ->
  0 <= strtohandle s -> strtohandle e < strtohandle s ->
  called (cmd_read_uuid E [name; u; s; e] w) = called w.
Proof.
  intros Hs Hu H0 Hlt. apply Z.ltb_ge in H0. apply Z.ltb_lt in Hlt.
  unfold cmd_read_uuid, reading. rewrite Hs.
  cbn [state_eqb negb arg nth].
  change (argc [name; u; s; e]) with 4.
  change (4 <? 2) with false. change (2 <? 4) with true.
  change (3 <? 4) with true. cbv iota. rewrite Hu. cbn [andb].
  rewrite H0, Hlt.
  assert (Hq : forall f, preserves called (sayf f >> update_display))
    by (intro f; unfold sayf, update_display; frame).
  apply Hq.
Qed.

(** C8 at its failing input.  On a connected client [characteristics]
    with two handles that parse sends its request for exactly those two
    handles, in whatever order they stand: the end handle is only tested
    for being negative.  [characteristics 0010 0005] requests the range
    [0x0010, 0x0005]. *)
Theorem characteristics_range_unchecked E name s e w :
  conn_state w = STATE_CONNECTED ->
  0 <= strtohandle s -> 0 <= strtohandle e ->
  cmd_char E [name; s; e] w
  = invoke (gatt_discover_char (strtohandle s) (strtohandle e) None CB_char) w.
Proof.
  intros Hs H0 H1. apply Z.ltb_ge in H0. apply Z.ltb_ge in H1.
  unfold cmd_char, reading. rewrite Hs.
  cbn [state_eqb negb arg nth].
  change (argc [name; s; e]) with 3.
  change (1 <? 3) with true. change (2 <? 3) with true.
  change (3 <? 3) with false. cbv beta iota zeta.
  rewrite H0, H1. reflexivity.
Qed.

Lemma characteristics_range_unchecked_witness :
  strtohandle "0005" < strtohandle "0010"
  /\ cmd_char fake ["characteristics"; "0010"; "0005"] connected
     = invoke (gatt_discover_char 16 5 None CB_char) connected.
Proof.
  split; [reflexivity|].
  apply (characteristics_range_unchecked fake "characteristics" "0010" "0005"
           connected).
  - reflexivity.
  - vm_compute. discriminate.
  - vm_compute. discriminate.
Defined.

(** ** Writes *)

(** With handle and value in order, the typed name alone decides: exactly
    [char-write-req] sends a request that carries the confirmation
    callback and prints nothing yet; any other spelling sends without a
    callback and reports status 0 at once. *)
Lemma cmd_char_write_variant E name h v w :
  conn_state w = STATE_CONNECTED ->
  0 < strtohandle h ->
  gatt_attr_data_from_string E v <> [] ->
  cmd_char_write E [name; h; v] w
  = if g_strcmp0_eq "char-write-req" name then
      invoke (gatt_write_char (strtohandle h)
                (gatt_attr_data_from_string E v) (Some CB_char_write_req)) w
    else
      (invoke (gatt_write_char (strtohandle h)
                 (gatt_attr_data_from_string E v) None) >>
       sayf (fun w => nl ++ tag "CHAR-WRITE-CMD" w ++ ": 0" ++ nl) >>
       update_display) w.
Proof.
  intros Hs Hh Hv. unfold cmd_char_write, reading.
  change (argc [name; h; v]) with 3. change (3 <? 3) with false.
  cbv beta iota zeta. rewrite Hs. cbn [state_eqb negb arg nth].
  replace (strtohandle h <=? 0) with false by (symmetry; apply Z.leb_gt; lia).
  replace (Z.of_nat (List.length (gatt_attr_data_from_string E v)) =? 0)
    with false.
  - destruct (g_strcmp0_eq "char-write-req" name); reflexivity.
  - symmetry. apply Z.eqb_neq.
    destruct (gatt_attr_data_from_string E v); [contradiction|].
    simpl List.length. lia.
Qed.

(** The confirmation of a write request: status 0 when the response decodes
    as a write response or as an execute-write response, status 1 when it
    decodes as neither. *)
Lemma char_write_req_cb_status E pdu w :
  char_write_req_cb E 0 pdu w
  = (say (nl ++ tag "CHAR-WRITE-REQ" w ++ ": "
          ++ (if dec_write_resp E pdu || dec_exec_write_resp E pdu
              then "0" else "1") ++ nl) >>
     update_display) w.
Proof.
  unfold char_write_req_cb. change (negb (0 =? 0)) with false. cbv iota.
  destruct (dec_write_resp E pdu), (dec_exec_write_resp E pdu); reflexivity.
Qed.

(** C9 at its failing input.  With handle and value in order, the handler
    picks the variant by comparing the typed name exactly with
    [char-write-req], while the dispatcher found the handler ignoring case.
    So [CHAR-WRITE-REQ 0010 01] reaches the char-write-req row, yet is sent
    without a confirmation callback and answered with the write-command
    line at once; in lower case the request carries the callback. *)
Theorem write_req_in_capitals_not_confirmed :
  (forall E name h v w,
     conn_state w = STATE_CONNECTED ->
     0 < strtohandle h ->
     gatt_attr_data_from_string E v <> [] ->
     cmd_char_write E [name; h; v] w
     = if g_strcmp0_eq "char-write-req" name then
         invoke (gatt_write_char (strtohandle h)
                   (gatt_attr_data_from_string E v)
                   (Some CB_char_write_req)) w
       else
         (invoke (gatt_write_char (strtohandle h)
                    (gatt_attr_data_from_string E v) None) >>
          sayf (fun w => nl ++ tag "CHAR-WRITE-CMD" w ++ ": 0" ++ nl) >>
          update_display) w)
  /\ option_map cmd (lookup "CHAR-WRITE-REQ") = Some "char-write-req"
  /\ option_map func (lookup "CHAR-WRITE-REQ") = Some Cmd_char_write
  /\ skipn (List.length (trace connected))
       (trace (after fake (typed "CHAR-WRITE-REQ 0010 01") connected))
     = [rl (add_history "CHAR-WRITE-REQ 0010 01");
        lib (gatt_write_char 16 [1] None);
        printf (nl ++ "CHAR-WRITE-CMD(0040): 0" ++ nl);
        rl rl_forced_update_display]
  /\ skipn (List.length (trace connected))
       (trace (after fake (typed "char-write-req 0010 01") connected))
     = [rl (add_history "char-write-req 0010 01");
        lib (gatt_write_char 16 [1] (Some CB_char_write_req))].
Proof.
  split; [exact cmd_char_write_variant|].
  repeat split; vm_compute; reflexivity.
Qed.

Lemma write_req_in_capitals_not_confirmed_witness :
  cmd_char_write fake ["CHAR-WRITE-REQ"; "0010"; "01"] connected
  = (invoke (gatt_write_char 16 [1] None) >>
     sayf (fun w => nl ++ tag "CHAR-WRITE-CMD" w ++ ": 0" ++ nl) >>
     update_display) connected.
Proof.
  apply (proj1 write_req_in_capitals_not_confirmed
           fake "CHAR-WRITE-REQ" "0010" "01" connected).
  - reflexivity.
  - vm_compute. reflexivity.
  - vm_compute. discriminate.
Defined.

(** * Further properties of the program *)

(** ** Handles printed and typed back *)

Lemma scan_hex_digit c d r acc any :
  digit_of c = Some d -> 0 <= d < 16 ->
  scan_digits 16 (String c r) acc any = scan_digits 16 r (acc * 16 + d) true.
Proof.
  intros Hc Hd. cbn [scan_digits]. rewrite Hc.
  replace (d <? 16) with true by (symmetry; apply Z.ltb_lt; lia).
  reflexivity.
Qed.

Lemma strtoll_hex4 c3 c2 c1 c0 d3 d2 d1 d0 :
  digit_of c3 = Some d3 -> digit_of c2 = Some d2 ->
  digit_of c1 = Some d1 -> digit_of c0 = Some d0 ->
  0 <= d3 < 16 -> 0 <= d2 < 16 -> 0 <= d1 < 16 -> 0 <= d0 < 16 ->
  is_x c2 = false ->
  strtoll (String c3 (String c2 (String c1 (String c0 EmptyString)))) 16
  = {| value := ((d3 * 16 + d2) * 16 + d1) * 16 + d0;
       endp := EmptyString; errno := 0 |}.
Proof.
  intros H3 H2 H1 H0 R3 R2 R1 R0 Hx.
  assert (Hscan : scan_digits 16
            (String c3 (String c2 (String c1 (String c0 EmptyString)))) 0 false
          = (((d3 * 16 + d2) * 16 + d1) * 16 + d0, true, EmptyString)).
  { rewrite (scan_hex_digit c3 d3) by assumption.
    rewrite (scan_hex_digit c2 d2) by assumption.
    rewrite (scan_hex_digit c1 d1) by assumption.
    rewrite (scan_hex_digit c0 d0) by assumption.
    reflexivity. }
  assert (Hlo : (((d3 * 16 + d2) * 16 + d1) * 16 + d0 <? LLONG_MIN) = false)
    by (apply Z.ltb_ge; unfold LLONG_MIN; lia).
  assert (Hhi : (LLONG_MAX <? ((d3 * 16 + d2) * 16 + d1) * 16 + d0) = false)
    by (apply Z.ltb_ge; unfold LLONG_MAX; lia).
  destruct c3 as [[] [] [] [] [] [] [] []];
    try (vm_compute in H3; discriminate);
    unfold strtoll, strto;
    repeat match goal with
    | |- context [skip_space (String ?c ?r)] =>
        change (skip_space (String c r)) with (String c r)
    end;
    cbv beta iota zeta.
  all: repeat match goal with
    | |- context [(16 =? 0) || (16 =? 16)] =>
        change ((16 =? 0) || (16 =? 16)) with true
    end; cbn [andb]; try rewrite Hx; cbv beta iota zeta.
  all: repeat match goal with
    | |- context [if 16 =? 0 then ?a else ?b] =>
        change (if 16 =? 0 then a else b) with b
    end; rewrite Hscan; cbv beta iota; rewrite Hlo, Hhi; reflexivity.
Qed.

Lemma hex_digit_facts up d :
  0 <= d < 16 ->
  digit_of (hex_digit up d) = Some d /\ is_x (hex_digit up d) = false.
Proof.
  intro Hd.
  assert (H : d = 0 \/ d = 1 \/ d = 2 \/ d = 3 \/ d = 4 \/ d = 5 \/ d = 6
              \/ d = 7 \/ d = 8 \/ d = 9 \/ d = 10 \/ d = 11 \/ d = 12
              \/ d = 13 \/ d = 14 \/ d = 15) by lia.
  destruct up;
    repeat (destruct H as [->|H]; [split; reflexivity|]);
    subst d; split; reflexivity.
Qed.

(** Four hexadecimal digits, as [%04x] and [%04X] print them, read back. *)
Lemma strtohandle_hex_fixed up n :
  0 <= n < 65536 ->
  strtohandle (hex_fixed up 4 n EmptyString) = n.
Proof.
  intro Hn. cbn [hex_fixed].
  pose proof (Z.mod_pos_bound n 16 ltac:(lia)) as B0.
  pose proof (Z.mod_pos_bound (n / 16) 16 ltac:(lia)) as B1.
  pose proof (Z.mod_pos_bound (n / 16 / 16) 16 ltac:(lia)) as B2.
  pose proof (Z.mod_pos_bound (n / 16 / 16 / 16) 16 ltac:(lia)) as B3.
  destruct (hex_digit_facts up _ B0) as [D0 _].
  destruct (hex_digit_facts up _ B1) as [D1 _].
  destruct (hex_digit_facts up _ B2) as [D2 X2].
  destruct (hex_digit_facts up _ B3) as [D3 _].
  unfold strtohandle.
  rewrite (strtoll_hex4 _ _ _ _ _ _ _ _ D3 D2 D1 D0 B3 B2 B1 B0 X2).
  cbn [value endp errno]. cbn [Z.eqb negb String.eqb orb].
  pose proof (Z.div_mod n 16 ltac:(lia)) as E0.
  pose proof (Z.div_mod (n / 16) 16 ltac:(lia)) as E1.
  pose proof (Z.div_mod (n / 16 / 16) 16 ltac:(lia)) as E2.
  assert (E3 : (n / 16 / 16 / 16) mod 16 = n / 16 / 16 / 16).
  { apply Z.mod_small. split.
    - repeat apply Z.div_pos; lia.
    - repeat (apply Z.div_lt_upper_bound; [lia|]). lia. }
  rewrite to_int_id by (unfold INT_MIN, INT_MAX; lia).
  lia.
Qed.

(** X1.  A handle as the program prints it, four hexadecimal digits in
    either case, is read back by [strtohandle] as the same handle. *)
Theorem strtohandle_of_printed_handle n :
  0 <= n < 65536 ->
  strtohandle (fmt_04x n) = n /\ strtohandle (fmt_04X n) = n.
Proof.
  intro Hn. unfold fmt_04x, fmt_04X.
  rewrite (to_uint16_id n Hn).
  split; apply strtohandle_hex_fixed; exact Hn.
Qed.

Lemma strtohandle_of_printed_handle_witness :
  strtohandle (fmt_04x 43981) = 43981 /\ strtohandle (fmt_04X 43981) = 43981.
Proof. apply (strtohandle_of_printed_handle 43981). lia. Defined.

(** ** The command table *)

Lemma tolower_idempotent c : tolower (tolower c) = tolower c.
Proof.
  destruct c as [[] [] [] [] [] [] [] []]; reflexivity.
Qed.

Lemma lower_idempotent s : lower (lower s) = lower s.
Proof.
  induction s as [|c r IH]; simpl; [reflexivity|].
  now rewrite tolower_idempotent, IH.
Qed.

Lemma find_ext {A} (p q : A -> bool) l :
  (forall x, p x = q x) -> find p l = find q l.
Proof.
  intro H. induction l as [|x r IH]; simpl; [reflexivity|].
  rewrite H, IH. reflexivity.
Qed.

Lemma lookup_lower name : lookup name = lookup (lower name).
Proof.
  unfold lookup. apply find_ext. intro c.
  unfold strcasecmp_eq. now rewrite lower_idempotent.
Qed.

Lemma lookup_own_name c : In c commands -> lookup (cmd c) = Some c.
Proof.
  intro H. unfold commands in H. simpl in H.
  repeat (destruct H as [<-|H]; [reflexivity|]).
  contradiction.
Qed.

(** X2.  The dispatcher's lookup ignores the case of the typed name, and
    no row of the table is shadowed by another: a name that equals a row's
    name up to case finds exactly that row. *)
Theorem lookup_finds_row_ignoring_case c name :
  In c commands -> lower name = cmd c -> lookup name = Some c.
Proof.
  intros Hin Hname. rewrite lookup_lower, Hname. now apply lookup_own_name.
Qed.

Lemma lookup_finds_row_ignoring_case_witness :
  option_map func (lookup "Char-Desc") = Some Cmd_char_desc.
Proof.
  rewrite (lookup_finds_row_ignoring_case
             {| cmd := "char-desc"; func := Cmd_char_desc;
                params := "[start hnd] [end hnd]";
                desc := "Characteristics Descriptor Discovery" |}
             "Char-Desc").
  - reflexivity.
  - unfold commands. simpl. tauto.
  - reflexivity.
Defined.

(** A name that finds a row is that row's name up to case. *)
Lemma lookup_some name c :
  lookup name = Some c -> In c commands /\ lower (cmd c) = lower name.
Proof.
  unfold lookup. intro H. apply find_some in H. destruct H as [Hin Heq].
  split; [exact Hin|]. unfold strcasecmp_eq in Heq.
  now apply String.eqb_eq in Heq.
Qed.

(** ** Tab completion *)

Lemma strncmp_prefix b : forall a,
  strncmp_eq a b (String.length b) = String.prefix b a.
Proof.
  induction b as [|y b' IH]; intro a.
  - destruct a; reflexivity.
  - destruct a as [|x a']; [reflexivity|].
    cbn [String.length strncmp_eq String.prefix].
    rewrite IH. destruct (ascii_dec y x) as [->|Hne].
    + now rewrite Ascii.eqb_refl.
    + destruct (Ascii.eqb x y) eqn:He; [|reflexivity].
      apply Ascii.eqb_eq in He. congruence.
Qed.

Lemma skipn_cons {A} (l : list A) : forall i x r,
  skipn i l = x :: r -> skipn (S i) l = r.
Proof.
  induction l as [|y l IH]; intros i x r H.
  - destruct i; discriminate.
  - destruct i as [|i]; simpl in *.
    + injection H as _ ->. reflexivity.
    + destruct l as [|z l']; [destruct i; discriminate|].
      apply (IH i x r H).
Qed.

(** From any row on, the non-zero states hand out the remaining matches in
    table order. *)
Lemma generate_rest text : forall rows i fuel,
  skipn i commands = rows ->
  (List.length rows < fuel)%nat ->
  generate fuel text 1 {| index := i; text_len := String.length text |}
  = map cmd (filter (completes text) rows).
Proof.
  induction rows as [|c r IH]; intros i fuel Hskip Hfuel.
  - destruct fuel as [|f]; [simpl in Hfuel; lia|].
    simpl. unfold completion_generator. simpl. rewrite Hskip. reflexivity.
  - destruct fuel as [|f]; [simpl in Hfuel; lia|].
    pose proof (skipn_cons commands i c r Hskip) as Hnext.
    simpl in Hfuel.
    cbn [filter]. unfold completes at 1. rewrite <- strncmp_prefix.
    destruct (strncmp_eq (cmd c) text (String.length text)) eqn:Hp.
    + cbn [generate]. unfold completion_generator.
      cbn [Z.eqb index text_len]. rewrite Hskip. cbn [completion_scan].
      rewrite Hp. cbn [map]. f_equal.
      replace (i + 1)%nat with (S i) by lia.
      apply IH; [exact Hnext | lia].
    + rewrite <- (IH (S i) (S f) Hnext) by lia.
      cbn [generate]. unfold completion_generator.
      cbn [Z.eqb index text_len]. rewrite Hskip, Hnext.
      cbn [completion_scan]. rewrite Hp.
      destruct (completion_scan r text (String.length text)) as [found k].
      replace (i + S k)%nat with (S i + k)%nat by lia. reflexivity.
Qed.

(** The first call, with state 0, resets the statics. *)
Lemma generate_first fuel text st :
  generate fuel text 0 st
  = generate fuel text 1 {| index := 0; text_len := String.length text |}.
Proof. destruct fuel; reflexivity. Qed.

(** X3.  For the first word of a line the completion candidates are exactly
    the names in the table that begin with the typed text, compared with
    case, in table order, whatever the generator's statics held before; for
    any later word there are none. *)
Theorem completion_candidates text start st :
  commands_completion text start st
  = if start =? 0
    then Some (map cmd (filter (completes text) commands))
    else None.
Proof.
  unfold commands_completion. destruct (start =? 0); [|reflexivity].
  f_equal. rewrite generate_first.
  apply (generate_rest text commands 0); [reflexivity | lia].
Qed.

(** X4.  Every completion candidate is a command: looked up again, it finds
    a row of that very name. *)
Theorem completion_candidates_resolve text st name :
  In name (generate (S (List.length commands)) text 0 st) ->
  option_map cmd (lookup name) = Some name.
Proof.
  intro H.
  rewrite generate_first in H.
  rewrite (generate_rest text commands 0) in H by (reflexivity || lia).
  apply in_map_iff in H. destruct H as (c & <- & Hin).
  apply filter_In in Hin. destruct Hin as [Hin _].
  rewrite (lookup_own_name c Hin). reflexivity.
Qed.

Lemma completion_candidates_resolve_witness :
  option_map cmd (lookup "char-read-uuid") = Some "char-read-uuid".
Proof.
  apply (completion_candidates_resolve "char-r"
           {| index := 9; text_len := 2 |} "char-read-uuid").
  vm_compute. tauto.
Defined.

(** ** How many calls a handler makes *)

Lemma issues_quiet p : preserves called p -> issues 0 p.
Proof.
  intros H w. exists []. rewrite H, app_nil_r. split; [reflexivity | simpl; lia].
Qed.

Lemma issues_weaken n m p : (n <= m)%nat -> issues n p -> issues m p.
Proof.
  intros Hle H w. destruct (H w) as (l & Hl & Hn). exists l. split; [exact Hl | lia].
Qed.

Lemma issues_invoke n c : issues (S n) (invoke c).
Proof.
  intro w. exists [c]. unfold invoke. rewrite emit_called_lib.
  split; [reflexivity | simpl; lia].
Qed.

Lemma issues_seq n m p q : issues n p -> issues m q -> issues (n + m) (p >> q).
Proof.
  intros Hp Hq w. unfold seq.
  destruct (Hp w) as (l1 & H1 & Hn). destruct (Hq (p w)) as (l2 & H2 & Hm).
  exists (l1 ++ l2)%list. rewrite H2, H1, app_assoc, length_app.
  split; [reflexivity | lia].
Qed.

Lemma issues_seq_quiet_r n p q :
  issues n p -> preserves called q -> issues n (p >> q).
Proof.
  intros Hp Hq. apply issues_quiet in Hq.
  replace n with (n + 0)%nat by lia. now apply issues_seq.
Qed.

Lemma issues_seq_quiet_l n p q :
  preserves called p -> issues n q -> issues n (p >> q).
Proof.
  intros Hp Hq. apply issues_quiet in Hp.
  change n with (0 + n)%nat. now apply issues_seq.
Qed.

Lemma issues_seq_one n p q : issues n p -> issues 1 q -> issues (S n) (p >> q).
Proof.
  intros Hp Hq. replace (S n) with (n + 1)%nat by lia. now apply issues_seq.
Qed.

Lemma issues_reading {B} n (get : world -> B) (k : B -> proc) :
  (forall b, issues n (k b)) -> issues n (reading get k).
Proof. intros H w. apply H. Qed.

(** Takes a goal [issues n p] apart along the structure of [p]. *)
Ltac issues_step :=
  match goal with
  | |- issues _ (reading _ _) => apply issues_reading; intro
  | |- issues _ (if ?b then _ else _) => destruct b
  | |- issues _ (match ?x with _ => _ end) => destruct x
  | |- issues _ _ => solve [apply (issues_weaken 0); [lia | apply issues_quiet; frame]]
  | |- issues (S _) (invoke _) => apply issues_invoke
  | |- issues ?n (_ >> _) =>
      first [ apply issues_seq_quiet_r; [ | solve [frame] ]
            | apply issues_seq_quiet_l; [ solve [frame] | ]
            | match n with S ?k => apply (issues_seq_one k) end ]
  end.

Ltac issues_auto := cbv zeta; repeat issues_step.

(** X5.  One invocation of a command handler makes at most one call into
    the libraries; help and psm make none, connect at most two
    ([gatt_connect] and the hang-up watch) and disconnect at most three. *)
Theorem one_request_per_command E h argv :
  issues (call_budget h) (run E h argv).
Proof.
  destruct h; cbn [call_budget run];
    unfold cmd_connect, cmd_disconnect, disconnect_io, set_state;
    unfold_program; issues_auto.
Qed.

(** ** Callbacks that only print *)

Lemma set_trace_same w : set_trace (trace w) w = w.
Proof. destruct w; reflexivity. Qed.

Lemma only_prints_skip : only_prints skip.
Proof.
  intro w. exists []. rewrite app_nil_r, set_trace_same. split; reflexivity.
Qed.

Lemma only_prints_say s : only_prints (say s).
Proof. intro w. exists [printf s]. split; reflexivity. Qed.

Lemma only_prints_readline r : only_prints (readline_do r).
Proof. intro w. exists [rl r]. split; reflexivity. Qed.

Lemma only_prints_seq p q : only_prints p -> only_prints q -> only_prints (p >> q).
Proof.
  intros Hp Hq w. unfold seq.
  destruct (Hp w) as (t1 & H1 & C1). destruct (Hq (p w)) as (t2 & H2 & C2).
  exists (t1 ++ t2)%list. rewrite H2, H1. cbn [trace set_trace].
  rewrite app_assoc, calls_app, C1, C2. split; reflexivity.
Qed.

Lemma only_prints_reading {B} (get : world -> B) (k : B -> proc) :
  (forall b, only_prints (k b)) -> only_prints (reading get k).
Proof. intros H w. apply H. Qed.

Lemma only_prints_for_each {B} (l : list B) (body : B -> proc) :
  (forall x, only_prints (body x)) -> only_prints (for_each l body).
Proof.
  intro H. induction l as [|x r IH]; simpl.
  - apply only_prints_skip.
  - apply only_prints_seq; auto.
Qed.

Ltac only_prints_step :=
  match goal with
  | |- only_prints (_ >> _) => apply only_prints_seq
  | |- only_prints (reading _ _) => apply only_prints_reading; intro
  | |- only_prints (for_each _ _) => apply only_prints_for_each; intro
  | |- only_prints skip => apply only_prints_skip
  | |- only_prints (say _) => apply only_prints_say
  | |- only_prints (readline_do _) => apply only_prints_readline
  | |- only_prints (if ?b then _ else _) => destruct b
  | |- only_prints (match ?x with _ => _ end) => destruct x
  end.

(** X6.  The callbacks that render a result (services, ranges,
    characteristics, a read value, a write confirmation) only print: they
    call no library function and leave every global as it was, whatever the
    status and the payload. *)
Theorem result_callbacks_only_print E :
  (forall l st, only_prints (primary_all_cb E l st))
  /\ (forall l st, only_prints (primary_by_uuid_cb E l st))
  /\ (forall l st, only_prints (char_cb E l st))
  /\ (forall st pdu, only_prints (char_read_cb E st pdu))
  /\ (forall st pdu, only_prints (char_write_req_cb E st pdu)).
Proof.
  repeat split; intros; unfold_program; repeat only_prints_step.
Qed.

(** ** What a listing looks like *)

Lemma for_each_sayf {A} (f : A -> world -> string) l :
  (forall x t w, f x (set_trace t w) = f x w) ->
  forall w,
    for_each l (fun x => sayf (f x)) w
    = set_trace (trace w ++ map (fun x => printf (f x w)) l)%list w.
Proof.
  intro Hf. induction l as [|a r IH]; intro w; simpl.
  - unfold skip. now rewrite app_nil_r, set_trace_same.
  - unfold seq. rewrite IH. unfold sayf, reading, say, emit.
    cbn [trace set_trace]. rewrite <- app_assoc. simpl.
    rewrite (map_ext (fun x => printf (f x (set_trace (trace w ++ [printf (f a w)])%list w)))
               (fun x => printf (f x w))) by (intro; now rewrite Hf).
    reflexivity.
Qed.

Lemma added_set_trace w t : added w (set_trace (trace w ++ t)%list w) = t.
Proof.
  unfold added. cbn [trace set_trace].
  rewrite skipn_app, skipn_all, Nat.sub_diag. reflexivity.
Qed.

Ltac listing_rows f :=
  unfold seq at 1 2 3; rewrite (for_each_sayf f) by reflexivity;
  unfold sayf, reading, update_display, readline_do, say, emit;
  cbn [trace set_trace]; rewrite <- !app_assoc; simpl app;
  exact (added_set_trace _ _).

Ltac listing_failed :=
  unfold seq, sayf, reading, update_display, readline_do, say, emit;
  cbn [trace set_trace]; rewrite <- !app_assoc; simpl app;
  exact (added_set_trace _ _).

(** X7.  A successful listing (primary services, service ranges,
    characteristics) is a blank line, one row per entry in the order
    received, and the END line with code 0, after which the display is
    refreshed; a failed one is the END line alone, with the status and its
    text. *)
Theorem listings_close_with_end_line E w :
  (forall services st,
     added w (primary_all_cb E services st w)
     = if st =? 0 then
         (printf nl
          :: map (fun prim =>
                    printf (tag "PRIMARY-ALL" w ++ ": "
                            ++ fmt_04x (range_start prim) ++ " "
                            ++ fmt_04x (range_end prim) ++ " "
                            ++ prim_uuid prim ++ nl)) services
          ++ [printf (tag "PRIMARY-ALL-END" w ++ ": 0" ++ nl);
              rl rl_forced_update_display])%list
       else
         [printf (nl ++ tag "PRIMARY-ALL-END" w ++ ": " ++ fmt_i st ++ " "
                  ++ att_ecode2str E st ++ nl);
          rl rl_forced_update_display])
  /\ (forall ranges st,
        added w (primary_by_uuid_cb E ranges st w)
        = if st =? 0 then
            (printf nl
             :: map (fun range =>
                       printf (tag "PRIMARY-UUID" w ++ ": "
                               ++ fmt_04x (ar_start range) ++ " "
                               ++ fmt_04x (ar_end range) ++ nl)) ranges
             ++ [printf (tag "PRIMARY-UUID-END" w ++ ": 0" ++ nl);
                 rl rl_forced_update_display])%list
          else
            [printf (tag "PRIMARY-UUID-END" w ++ ": " ++ fmt_i st ++ " "
                     ++ att_ecode2str E st ++ nl);
             rl rl_forced_update_display])
  /\ (forall characteristics st,
        added w (char_cb E characteristics st w)
        = if st =? 0 then
            (printf nl
             :: map (fun chars =>
                       printf (tag "CHAR" w ++ ": " ++ fmt_04x (handle chars)
                               ++ " " ++ fmt_02x (properties chars) ++ " "
                               ++ fmt_04x (value_handle chars) ++ " "
                               ++ char_uuid chars ++ nl)) characteristics
             ++ [printf (tag "CHAR-END" w ++ ": 0" ++ nl);
                 rl rl_forced_update_display])%list
          else
            [printf (tag "CHAR-END" w ++ ": " ++ fmt_i st ++ " "
                     ++ att_ecode2str E st ++ nl);
             rl rl_forced_update_display]).
Proof.
  split; [|split].
  - intros services st. unfold primary_all_cb.
    destruct (st =? 0); cbn [negb]; [|listing_failed].
    listing_rows (fun prim w => tag "PRIMARY-ALL" w ++ ": "
                                ++ fmt_04x (range_start prim) ++ " "
                                ++ fmt_04x (range_end prim) ++ " "
                                ++ prim_uuid prim ++ nl).
  - intros ranges st. unfold primary_by_uuid_cb.
    destruct (st =? 0); cbn [negb]; [|listing_failed].
    listing_rows (fun range w => tag "PRIMARY-UUID" w ++ ": "
                                 ++ fmt_04x (ar_start range) ++ " "
                                 ++ fmt_04x (ar_end range) ++ nl).
  - intros characteristics st. unfold char_cb.
    destruct (st =? 0); cbn [negb]; [|listing_failed].
    listing_rows (fun chars w => tag "CHAR" w ++ ": " ++ fmt_04x (handle chars)
                                 ++ " " ++ fmt_02x (properties chars) ++ " "
                                 ++ fmt_04x (value_handle chars) ++ " "
                                 ++ char_uuid chars ++ nl).
Qed.

(** ** Unsolicited PDUs *)

Lemma only_prints_then_invoke p c w :
  only_prints p ->
  exists t, (p >> invoke c) w = set_trace (trace w ++ t)%list w
            /\ calls t = [c].
Proof.
  intro Hp. destruct (Hp w) as (t & Ht & Hc).
  exists (t ++ [lib c])%list. unfold seq, invoke, emit. rewrite Ht.
  cbn [trace set_trace]. rewrite app_assoc, calls_app, Hc.
  split; reflexivity.
Qed.

(** X8.  [events_handler] changes no global, whatever arrives.  It answers
    an indication with the confirmation PDU the encoder built, when that is
    not empty, and sends nothing in any other case: not for a notification,
    not for an opcode it does not know. *)
Theorem events_handler_confirms_indications_only E pdu w :
  exists t,
    events_handler E pdu w = set_trace (trace w ++ t)%list w
    /\ calls t
       = if (nth 0 pdu 0 =? ATT_OP_HANDLE_IND)
            && (0 <? Z.of_nat (List.length (enc_confirmation E)))
         then [g_attrib_send (enc_confirmation E)]
         else [].
Proof.
  unfold events_handler.
  assert (Hquiet : forall p, only_prints p ->
            exists t, p w = set_trace (trace w ++ t)%list w /\ calls t = [])
    by (intros p Hp; apply Hp).
  destruct (nth 0 pdu 0 =? ATT_OP_HANDLE_NOTIFY) eqn:Hn.
  - apply Z.eqb_eq in Hn. rewrite Hn.
    change (ATT_OP_HANDLE_NOTIFY =? ATT_OP_HANDLE_IND) with false.
    cbn [andb]. apply Hquiet. unfold sayf, update_display.
    repeat only_prints_step.
  - destruct (nth 0 pdu 0 =? ATT_OP_HANDLE_IND) eqn:Hi; cbn [andb].
    + destruct (0 <? Z.of_nat (List.length (enc_confirmation E))).
      * match goal with
        | |- context [(?a >> (?b >> (?c >> ?d >> ?e >> invoke ?x))) w] =>
            apply (only_prints_then_invoke (a >> (b >> (c >> d >> e))) x w)
        end.
        unfold sayf, update_display. repeat only_prints_step.
      * apply Hquiet. unfold sayf, update_display. repeat only_prints_step.
    + apply Hquiet. unfold sayf, update_display. repeat only_prints_step.
Qed.

(** ** The MTU response *)

(** X9.  [exchange_mtu_cb] changes no global.  It sets the client's MTU
    only on a response of status 0 that decodes, and then to the smaller of
    the peer's value and [opt_mtu]; an error status or an undecodable
    response is only reported. *)
Theorem exchange_mtu_cb_sets_mtu_on_success_only E st pdu w :
  exists t,
    exchange_mtu_cb E st pdu w = set_trace (trace w ++ t)%list w
    /\ calls t
       = match dec_mtu_resp E pdu with
         | Some peer =>
             if st =? 0
             then [g_attrib_set_mtu (to_uint16 (Z.min peer (opt_mtu w)))]
             else []
         | None => []
         end.
Proof.
  unfold exchange_mtu_cb.
  assert (Hquiet : forall p, only_prints p ->
            exists t, p w = set_trace (trace w ++ t)%list w /\ calls t = [])
    by (intros p Hp; apply Hp).
  destruct (st =? 0); cbn [negb].
  - destruct (dec_mtu_resp E pdu) as [peer|].
    + unfold reading.
      assert (Hmin : (if peer <? opt_mtu w then peer else opt_mtu w)
                     = Z.min peer (opt_mtu w))
        by (destruct (Z.ltb_spec peer (opt_mtu w)); lia).
      rewrite Hmin.
      set (mtu := to_uint16 (Z.min peer (opt_mtu w))).
      assert (Htail : forall p, only_prints p ->
                exists t,
                  (invoke (g_attrib_set_mtu mtu) >> p >> update_display) w
                  = set_trace (trace w ++ t)%list w
                  /\ calls t = [g_attrib_set_mtu mtu]).
      { intros p Hp.
        assert (Hq : only_prints (p >> update_display))
          by (unfold update_display; repeat only_prints_step; exact Hp).
        destruct (Hq (invoke (g_attrib_set_mtu mtu) w)) as (t & Ht & Hc).
        exists (lib (g_attrib_set_mtu mtu) :: t).
        change ((invoke (g_attrib_set_mtu mtu) >> p >> update_display) w)
          with ((p >> update_display) (invoke (g_attrib_set_mtu mtu) w)).
        rewrite Ht. unfold invoke, emit. cbn [trace set_trace calls].
        rewrite <- app_assoc, Hc. split; reflexivity. }
      destruct (g_attrib_set_mtu_ret E mtu); apply Htail;
        unfold sayf; repeat only_prints_step.
    + apply Hquiet. unfold sayf, update_display. repeat only_prints_step.
  - destruct (dec_mtu_resp E pdu); apply Hquiet;
      unfold sayf, update_display; repeat only_prints_step.
Qed.

(** ** What a request is sent with *)

(** Closes a branch in which the handler only reports. *)
Ltac quiet_branch :=
  match goal with
  | |- called (?p ?w) = called ?w =>
      let H := fresh in
      assert (H : preserves called p)
        by (unfold sayf, update_display; frame);
      apply H
  end.

(** X10.  [cmd_char_write] sends a write only on a connected client, with
    at least a handle and a value, a handle that parses to a positive
    number and a value that is not empty; in every other case it sends
    nothing.  The write carries the confirmation callback exactly when the
    typed name is [char-write-req]. *)
Theorem write_needs_handle_and_value E argv w :
  called (cmd_char_write E argv w) = called w
  \/ (conn_state w = STATE_CONNECTED
      /\ 3 <= argc argv
      /\ 0 < strtohandle (arg 1 argv)
      /\ gatt_attr_data_from_string E (arg 2 argv) <> []
      /\ called (cmd_char_write E argv w)
         = (called w
            ++ [gatt_write_char (strtohandle (arg 1 argv))
                  (gatt_attr_data_from_string E (arg 2 argv))
                  (if g_strcmp0_eq "char-write-req" (arg 0 argv)
                   then Some CB_char_write_req else None)])%list).
Proof.
  unfold cmd_char_write.
  destruct (argc argv <? 3) eqn:Hargc; [left; quiet_branch|].
  cbv zeta. unfold reading.
  destruct (state_eqb (conn_state w) STATE_CONNECTED) eqn:Hs; cbn [negb];
    [|left; destruct (g_strcmp0_eq "char-write-req" (arg 0 argv)); quiet_branch].
  destruct (strtohandle (arg 1 argv) <=? 0) eqn:Hh;
    [left; destruct (g_strcmp0_eq "char-write-req" (arg 0 argv)); quiet_branch|].
  destruct (Z.of_nat (List.length (gatt_attr_data_from_string E (arg 2 argv)))
            =? 0) eqn:Hv;
    [left; destruct (g_strcmp0_eq "char-write-req" (arg 0 argv)); quiet_branch|].
  right. apply state_eqb_eq in Hs. apply Z.ltb_ge in Hargc.
  apply Z.leb_gt in Hh. apply Z.eqb_neq in Hv.
  repeat split; try assumption.
  - intro Hnil. rewrite Hnil in Hv. simpl in Hv. lia.
  - destruct (g_strcmp0_eq "char-write-req" (arg 0 argv)).
    + unfold invoke. apply emit_called_lib.
    + unfold seq, sayf, reading, update_display.
      rewrite readline_quiet, say_quiet. unfold invoke. apply emit_called_lib.
Qed.

(** X11.  [cmd_char_desc] requests descriptors only on a connected client
    and for a start handle that is not negative; an end handle given on the
    line is at least the start handle, an end handle left out is 0xffff.
    The range requested is the one left in the file-level [start] and
    [end], which the pagination callback reads. *)
Theorem char_desc_request_shape argv w :
  called (cmd_char_desc argv w) = called w
  \/ (conn_state w = STATE_CONNECTED
      /\ 0 <= start (cmd_char_desc argv w)
      /\ (2 < argc argv ->
          start (cmd_char_desc argv w) <= end_ (cmd_char_desc argv w))
      /\ (argc argv <= 2 -> end_ (cmd_char_desc argv w) = 65535)
      /\ called (cmd_char_desc argv w)
         = (called w
            ++ [gatt_find_info (start (cmd_char_desc argv w))
                  (end_ (cmd_char_desc argv w)) CB_char_desc])%list).
Proof.
  remember (cmd_char_desc argv w) as r eqn:Hr.
  unfold cmd_char_desc, reading in Hr.
  destruct (state_eqb (conn_state w) STATE_CONNECTED) eqn:Hs; cbn [negb] in Hr;
    [|left; subst r; quiet_branch].
  apply state_eqb_eq in Hs.
  unfold seq at 1 in Hr. unfold reading in Hr. cbn [start set_start] in Hr.
  set (s := if 1 <? argc argv then strtohandle (arg 1 argv) else 1) in Hr.
  destruct ((1 <? argc argv) && (s <? 0)) eqn:Hbad.
  - left. subst r.
    assert (Hq : forall f, preserves called
              (set_start s >> (sayf f >> update_display)))
      by (intro f; unfold sayf, update_display; frame).
    apply (Hq _ w).
  - assert (Hs0 : 0 <= s).
    { subst s. destruct (1 <? argc argv); [|lia].
      cbn [andb] in Hbad. apply Z.ltb_ge in Hbad. exact Hbad. }
    unfold seq at 1 in Hr. unfold reading in Hr.
    cbn [end_ set_end start set_start] in Hr.
    set (e := if 2 <? argc argv then strtohandle (arg 2 argv) else 65535) in Hr.
    destruct ((2 <? argc argv) && (e <? s)) eqn:Hbad2.
    + left. subst r.
      assert (Hq : forall f, preserves called
                (set_start s >> (set_end e >> (sayf f >> update_display))))
        by (intro f; unfold sayf, update_display; frame).
      apply (Hq _ w).
    + right. subst r. cbn [start end_ invoke emit set_trace set_end set_start].
      split; [exact Hs|]. split; [exact Hs0|]. split; [|split].
      * intro Hargc. apply Z.ltb_lt in Hargc. rewrite Hargc in Hbad2.
        cbn [andb] in Hbad2. apply Z.ltb_ge in Hbad2. exact Hbad2.
      * intro Hargc. subst e.
        replace (2 <? argc argv) with false by (symmetry; apply Z.ltb_ge; lia).
        reflexivity.
      * unfold invoke. rewrite emit_called_lib. reflexivity.
Qed.

(** X12.  [cmd_read_uuid] requests a read only on a connected client, with
    a UUID the parser accepts and a start handle that is not negative; an
    end handle given on the line is at least the start handle.  The record
    that travels with the request starts with its cursor on the start
    handle. *)
Theorem read_uuid_request_shape E argv w :
  let s := if 2 <? argc argv then strtohandle (arg 2 argv) else 1 in
  let e := if 3 <? argc argv then strtohandle (arg 3 argv) else 65535 in
  called (cmd_read_uuid E argv w) = called w
  \/ (conn_state w = STATE_CONNECTED
      /\ 2 <= argc argv
      /\ 0 <= s
      /\ (3 < argc argv -> s <= e)
      /\ exists uuid,
           bt_string_to_uuid E (arg 1 argv) = Some uuid
           /\ called (cmd_read_uuid E argv w)
              = (called w
                 ++ [gatt_read_char_by_uuid s e uuid
                       (CB_char_read_by_uuid
                          {| cd_orig_start := to_uint16 s;
                             cd_start := to_uint16 s;
                             cd_end := to_uint16 e;
                             cd_uuid := uuid |})])%list).
Proof.
  intros s e.
  remember (cmd_read_uuid E argv w) as r eqn:Hr.
  unfold cmd_read_uuid, reading in Hr. fold s in Hr. fold e in Hr.
  destruct (state_eqb (conn_state w) STATE_CONNECTED) eqn:Hs; cbn [negb] in Hr;
    [|left; subst r; quiet_branch].
  apply state_eqb_eq in Hs.
  destruct (argc argv <? 2) eqn:Hargc; [left; subst r; quiet_branch|].
  apply Z.ltb_ge in Hargc.
  destruct (bt_string_to_uuid E (arg 1 argv)) as [uuid|] eqn:Hu;
    [|left; subst r; quiet_branch].
  destruct ((2 <? argc argv) && (s <? 0)) eqn:Hbad;
    [left; subst r; quiet_branch|].
  destruct ((3 <? argc argv) && (e <? s)) eqn:Hbad2;
    [left; subst r; quiet_branch|].
  right. subst r. split; [exact Hs|]. split; [exact Hargc|]. split; [|split].
  - subst s. destruct (2 <? argc argv); [|lia].
    cbn [andb] in Hbad. apply Z.ltb_ge in Hbad. exact Hbad.
  - intro H3. apply Z.ltb_lt in H3. rewrite H3 in Hbad2.
    cbn [andb] in Hbad2. apply Z.ltb_ge in Hbad2. exact Hbad2.
  - exists uuid. split; [reflexivity|].
    unfold invoke. apply emit_called_lib.
Qed.

(** X13.  [cmd_read_hnd] requests a read only on a connected client and
    for a handle that parses to a number that is not negative.  The offset
    is 0 when none is typed; a typed offset must be a number in C notation
    with nothing after it, or nothing is requested. *)
Theorem read_hnd_request_shape argv w :
  called (cmd_read_hnd argv w) = called w
  \/ (conn_state w = STATE_CONNECTED
      /\ 2 <= argc argv
      /\ 0 <= strtohandle (arg 1 argv)
      /\ exists offset,
           called (cmd_read_hnd argv w)
           = (called w
              ++ [gatt_read_char (strtohandle (arg 1 argv)) offset
                    CB_char_read])%list
           /\ (argc argv <= 2 -> offset = 0)
           /\ (2 < argc argv ->
               errno (strtol (arg 2 argv) 0) = 0
               /\ endp (strtol (arg 2 argv) 0) = EmptyString
               /\ offset = to_int (value (strtol (arg 2 argv) 0)))).
Proof.
  remember (cmd_read_hnd argv w) as r eqn:Hr.
  unfold cmd_read_hnd, reading in Hr.
  destruct (state_eqb (conn_state w) STATE_CONNECTED) eqn:Hs; cbn [negb] in Hr;
    [|left; subst r; quiet_branch].
  apply state_eqb_eq in Hs.
  destruct (argc argv <? 2) eqn:Hargc; [left; subst r; quiet_branch|].
  apply Z.ltb_ge in Hargc.
  destruct (strtohandle (arg 1 argv) <? 0) eqn:Hh;
    [left; subst r; quiet_branch|].
  apply Z.ltb_ge in Hh.
  destruct (2 <? argc argv) eqn:H2.
  - destruct (errno (strtol (arg 2 argv) 0) =? 0) eqn:He;
      destruct (String.eqb (endp (strtol (arg 2 argv) 0)) EmptyString) eqn:Hp;
      cbn [negb orb] in Hr; try (left; subst r; quiet_branch).
    right. subst r. repeat (split; [assumption|]).
    exists (to_int (value (strtol (arg 2 argv) 0))). split; [|split].
    + unfold invoke. apply emit_called_lib.
    + apply Z.ltb_lt in H2. lia.
    + intros _. apply Z.eqb_eq in He. apply String.eqb_eq in Hp. auto.
  - right. subst r. repeat (split; [assumption|]).
    exists 0. split; [|split].
    + unfold invoke. apply emit_called_lib.
    + reflexivity.
    + apply Z.ltb_ge in H2. lia.
Qed.

(** X14.  [cmd_connect] reaches the transport only from Disconnected and
    with a destination, typed or configured.  The attempt is made with the
    configured source, security level, PSM and MTU; an address typed
    without a type is taken as public; the hang-up watch is installed only
    if [gatt_connect] returned a channel. *)
Theorem connect_request_shape E argv w :
  called (cmd_connect E argv w) = called w
  \/ (conn_state w = STATE_DISCONNECTED
      /\ exists dst dst_type,
           (1 < argc argv ->
              dst = arg 1 argv
              /\ dst_type = Some (if 2 <? argc argv then arg 2 argv
                                  else "public"))
           /\ (argc argv <= 1 ->
                 opt_dst w = Some dst /\ dst_type = opt_dst_type w)
           /\ opt_dst (cmd_connect E argv w) = Some dst
           /\ called (cmd_connect E argv w)
              = (called w
                 ++ gatt_connect (opt_src w) (Some dst) dst_type
                      (opt_sec_level w) (opt_psm w) (opt_mtu w)
                    :: (if gatt_connect_ret E then [g_io_add_watch] else []))%list).
Proof.
  remember (cmd_connect E argv w) as r eqn:Hr.
  unfold cmd_connect, reading at 1 in Hr.
  destruct (state_eqb (conn_state w) STATE_DISCONNECTED) eqn:Hs;
    cbn [negb] in Hr; [|left; subst r; reflexivity].
  apply state_eqb_eq in Hs.
  destruct (1 <? argc argv) eqn:H1.
  - right. split; [exact Hs|].
    exists (arg 1 argv), (Some (if 2 <? argc argv then arg 2 argv else "public")).
    split; [auto|]. split; [apply Z.ltb_lt in H1; lia|].
    subst r. split; [destruct (gatt_connect_ret E); reflexivity|].
    destruct (gatt_connect_ret E); unfold called;
      cbn; rewrite !calls_app; cbn; now rewrite <- !app_assoc.
  - cbv beta delta [seq skip reading] in Hr.
    destruct (opt_dst w) as [dst|] eqn:Hdst.
    + right. split; [exact Hs|].
      exists dst, (opt_dst_type w).
      split; [apply Z.ltb_ge in H1; lia|]. split; [auto|].
      subst r. split; [destruct (gatt_connect_ret E); cbn; exact Hdst|].
      destruct (gatt_connect_ret E); unfold called;
        cbn; rewrite !calls_app, Hdst; cbn; now rewrite <- !app_assoc.
    + left. subst r. unfold update_display.
      now rewrite readline_quiet, say_quiet.
Qed.

(** ** Security level, asked again *)

Lemma sec_level_apply_conn_handle E lvl :
  preserves conn_handle (sec_level_apply E lvl).
Proof. unfold sec_level_apply, sec_level_report, sayf, update_display. frame. Qed.

Lemma added_app w w' t : trace w' = (trace w ++ t)%list -> added w w' = t.
Proof.
  intro H. unfold added. rewrite H, skipn_app, skipn_all, Nat.sub_diag.
  reflexivity.
Qed.

(** X15.  After a sec-level command with a valid level, a bare sec-level
    query prints that level back exactly as it was typed, whatever the
    first command went on to report. *)
Theorem sec_level_query_shows_typed_level E E' name name' a w :
  valid_level a = true ->
  added (cmd_sec_level E [name; a] w)
    (cmd_sec_level E' [name'] (cmd_sec_level E [name; a] w))
  = [printf (nl ++ tag "SEC-LEVEL" w ++ ": 0 " ++ a ++ nl);
     rl rl_forced_update_display].
Proof.
  intro Hvalid.
  destruct (cmd_sec_level_valid E [name; a] w (argc_2 name a) Hvalid)
    as [lvl Heq].
  cbn [arg nth] in Heq. rewrite Heq.
  set (w1 := (set_opt_sec_level (Some a) >> sec_level_apply E lvl) w).
  assert (Hlevel : opt_sec_level w1 = Some a)
    by (unfold w1, seq; now rewrite sec_level_apply_opt_sec_level).
  assert (Hhandle : conn_handle w1 = conn_handle w)
    by (unfold w1, seq; now rewrite sec_level_apply_conn_handle).
  apply added_app.
  unfold cmd_sec_level. change (argc [name'] <? 2) with true. cbv iota.
  unfold sec_level_report, seq, sayf, reading, update_display, readline_do,
    say, emit, tag.
  cbn [trace set_trace]. rewrite Hlevel, Hhandle, <- app_assoc. reflexivity.
Qed.

Lemma sec_level_query_shows_typed_level_witness :
  added (cmd_sec_level fake ["sec-level"; "HIGH"] connected)
    (cmd_sec_level fake ["sec-level"]
       (cmd_sec_level fake ["sec-level"; "HIGH"] connected))
  = [printf (nl ++ tag "SEC-LEVEL" connected ++ ": 0 HIGH" ++ nl);
     rl rl_forced_update_display].
Proof.
  apply (sec_level_query_shows_typed_level fake fake "sec-level" "sec-level"
           "HIGH" connected).
  reflexivity.
Defined.

(** ** Connecting and disconnecting *)

(** X16.  When the link comes up but its handle cannot be read,
    [connect_cb] reports the error and leaves the state where it was, with
    handle 0.  From Connecting the client then stays in Connecting: a new
    connect is ignored, and a disconnect is what brings it back to
    Disconnected. *)
Theorem handle_read_failure_keeps_state E gerr w :
  bt_io_get_ret E = inl gerr ->
  conn_state (connect_cb E None w) = conn_state w
  /\ conn_handle (connect_cb E None w) = 0
  /\ printed (added w (connect_cb E None w))
     = [tag "CONNECTED" w ++ ": " ++ fmt_s (opt_dst w) ++ " "
        ++ fmt_i (gerr_code gerr) ++ " " ++ gerr_message gerr ++ nl]
  /\ (conn_state w = STATE_CONNECTING ->
      (forall E' argv,
         cmd_connect E' argv (connect_cb E None w) = connect_cb E None w)
      /\ conn_state (disconnect_io (connect_cb E None w)) = STATE_DISCONNECTED
      /\ opt_mtu (disconnect_io (connect_cb E None w)) = 0).
Proof.
  intro Hret.
  pose proof (connect_cb_connection E None w) as Hc. rewrite Hret in Hc.
  connection_eq Hc Hs Hh.
  split; [exact Hs|]. split; [exact Hh|]. split.
  - unfold connect_cb. rewrite Hret.
    rewrite (added_app w _
               [lib g_attrib_new; lib (g_attrib_register ATT_OP_HANDLE_NOTIFY);
                lib (g_attrib_register ATT_OP_HANDLE_IND); lib bt_io_get;
                printf (tag "CONNECTED" w ++ ": " ++ fmt_s (opt_dst w) ++ " "
                        ++ fmt_i (gerr_code gerr) ++ " " ++ gerr_message gerr
                        ++ nl);
                rl rl_forced_update_display]).
    + reflexivity.
    + unfold seq, sayf, reading, update_display, readline_do, say, invoke, emit.
      cbn [trace set_trace set_attrib set_conn_handle].
      rewrite <- !app_assoc. reflexivity.
  - intro Hconnecting. split; [|split].
    + intros E' argv. apply cmd_connect_ignored. rewrite Hs, Hconnecting.
      discriminate.
    + apply disconnect_io_state.
    + apply disconnect_io_opt_mtu. rewrite Hs, Hconnecting. discriminate.
Qed.

Lemma handle_read_failure_keeps_state_witness :
  conn_state (connect_cb refusing None connecting) = STATE_CONNECTING
  /\ cmd_connect fake ["connect"] (connect_cb refusing None connecting)
     = connect_cb refusing None connecting.
Proof.
  destruct (handle_read_failure_keeps_state refusing
              {| gerr_code := 1; gerr_message := "failed" |} connecting
              eq_refl) as (Hs & _ & _ & Hstuck).
  split.
  - rewrite Hs. reflexivity.
  - apply (proj1 (Hstuck eq_refl)).
Defined.

(** X17.  A disconnect from any state but Disconnected ends Disconnected
    with handle 0, no channel and no attribute client, and the MTU back at
    0; the PSM, the security level and the addresses stay as they were.  A
    second disconnect does nothing at all. *)
Theorem disconnect_resets_mtu_keeps_config w :
  conn_state w <> STATE_DISCONNECTED ->
  conn_state (disconnect_io w) = STATE_DISCONNECTED
  /\ conn_handle (disconnect_io w) = 0
  /\ opt_mtu (disconnect_io w) = 0
  /\ iochannel (disconnect_io w) = false
  /\ attrib (disconnect_io w) = false
  /\ opt_psm (disconnect_io w) = opt_psm w
  /\ opt_sec_level (disconnect_io w) = opt_sec_level w
  /\ opt_src (disconnect_io w) = opt_src w
  /\ opt_dst (disconnect_io w) = opt_dst w
  /\ opt_dst_type (disconnect_io w) = opt_dst_type w
  /\ disconnect_io (disconnect_io w) = disconnect_io w.
Proof.
  intro Hs. apply state_eqb_neq in Hs.
  assert (Hlast : disconnect_io (disconnect_io w) = disconnect_io w).
  { unfold disconnect_io at 1. unfold reading.
    rewrite disconnect_io_state. reflexivity. }
  unfold disconnect_io, reading in *. rewrite Hs in *.
  repeat split; try reflexivity; exact Hlast.
Qed.

Lemma disconnect_resets_mtu_keeps_config_witness :
  opt_mtu mtu_requested = 100
  /\ opt_mtu (disconnect_io mtu_requested) = 0
  /\ opt_sec_level (disconnect_io mtu_requested) = Some "low".
Proof.
  assert (Hs : conn_state mtu_requested <> STATE_DISCONNECTED)
    by (vm_compute; discriminate).
  destruct (disconnect_resets_mtu_keeps_config mtu_requested Hs)
    as (_ & _ & Hmtu & _ & _ & _ & Hlevel & _).
  split; [reflexivity|]. split; [exact Hmtu|].
  rewrite Hlevel. reflexivity.
Defined.

Lemma printed_app t u : printed (t ++ u)%list = (printed t ++ printed u)%list.
Proof.
  induction t as [|[s|r|c] t IH]; simpl; auto. now rewrite IH.
Qed.

(** X18.  A hang-up on the channel always ends Disconnected.  It prints its
    own DISCONNECTED line first; when the client was not Disconnected
    already, the disconnect it runs prints a second one, both with the
    handle the connection had. *)
Theorem hang_up_reports w :
  conn_state (channel_watcher w) = STATE_DISCONNECTED
  /\ printed (trace (channel_watcher w))
     = List.app (printed (trace w))
         ((nl ++ tag "DISCONNECTED" w ++ ": " ++ fmt_s (opt_dst w) ++ nl)
          :: (if state_eqb (conn_state w) STATE_DISCONNECTED then []
              else [nl ++ "DISCONNECTED(" ++ fmt_04X (conn_handle w) ++ "): "
                    ++ fmt_s (opt_dst w) ++ nl])).
Proof.
  split.
  - unfold channel_watcher, seq, update_display, readline_do, emit.
    cbn [conn_state set_trace]. apply disconnect_io_state.
  - unfold channel_watcher, seq, sayf, reading, update_display, readline_do,
      say, emit, disconnect_io, reading.
    cbn [conn_state set_trace].
    destruct (state_eqb (conn_state w) STATE_DISCONNECTED).
    + unfold skip. cbn [trace set_trace]. rewrite !printed_app. cbn.
      now rewrite app_nil_r.
    + cbn. rewrite !printed_app. cbn. rewrite !app_nil_r.
      now rewrite <- app_assoc.
Qed.

(** ** The transport mode during a connection *)

Lemma emit_opt_psm e : preserves opt_psm (emit e).
Proof. intro w. reflexivity. Qed.

Lemma run_opt_psm E h argv :
  h <> Cmd_psm -> preserves opt_psm (run E h argv).
Proof.
  intro Hp. destruct h; try congruence; simpl;
    unfold cmd_connect, cmd_disconnect, disconnect_io, set_state;
    unfold_program; frame.
Qed.

Lemma callbacks_opt_psm E :
  (forall err, preserves opt_psm (connect_cb E err))
  /\ preserves opt_psm channel_watcher
  /\ (forall pdu, preserves opt_psm (events_handler E pdu))
  /\ (forall l st, preserves opt_psm (primary_all_cb E l st))
  /\ (forall l st, preserves opt_psm (primary_by_uuid_cb E l st))
  /\ (forall l st, preserves opt_psm (char_cb E l st))
  /\ (forall st pdu, preserves opt_psm (char_read_cb E st pdu))
  /\ (forall st pdu, preserves opt_psm (char_write_req_cb E st pdu))
  /\ (forall st pdu, preserves opt_psm (exchange_mtu_cb E st pdu)).
Proof.
  repeat split; intros;
    unfold connect_cb, channel_watcher, disconnect_io, set_state;
    unfold_program; frame.
Qed.

(** X19.  While the client is Connected no turn of the event loop changes
    the PSM: the transport mode, LE or BR/EDR, is fixed for the life of a
    connection. *)
Theorem psm_fixed_while_connected w w' :
  step w w' -> conn_state w = STATE_CONNECTED -> opt_psm w' = opt_psm w.
Proof.
  intros (E & ev & H) Hs.
  destruct (callbacks_opt_psm E)
    as (C0 & Cw & C1 & C2 & C3 & C4 & C5 & C6 & C7).
  destruct ev; simpl in H; try (injection H as <-).
  - unfold parse_line in H. destruct line_read as [line|].
    + destruct (String.eqb (g_strstrip line) EmptyString);
        [injection H as <-; reflexivity|].
      destruct (g_shell_parse_argv E (g_strstrip line)) as [[|name argv]|];
        try discriminate.
      destruct (lookup name) as [c|]; injection H as <-; [|reflexivity].
      destruct (func c) eqn:Hf;
        try (transitivity
               (opt_psm (readline_do (add_history (g_strstrip line)) w));
             [apply run_opt_psm; congruence | reflexivity]).
      pose proof (cmd_psm_config (name :: argv)
                    (readline_do (add_history (g_strstrip line)) w) Hs) as Hc.
      exact (f_equal fst Hc).
    + injection H as <-. reflexivity.
  - apply C0.
  - apply Cw.
  - apply C1.
  - apply C2.
  - apply C3.
  - apply C4.
  - apply (char_desc_cb_frame opt_psm E status pdu emit_opt_psm).
  - apply C5.
  - apply (char_read_by_uuid_cb_frame opt_psm E status pdu user_data emit_opt_psm).
  - apply C6.
  - apply C7.
  - assert (Hq : preserves opt_psm
                   (readline_do rl_callback_handler_remove >> cmd_disconnect []))
      by (unfold cmd_disconnect, disconnect_io, set_state;
          unfold_program; frame).
    apply Hq.
Qed.

Lemma psm_fixed_while_connected_witness :
  opt_psm (after fake (typed "psm 31") connected) = 0.
Proof.
  apply (psm_fixed_while_connected connected
           (after fake (typed "psm 31") connected)).
  - exists fake, (typed "psm 31"). reflexivity.
  - reflexivity.
Defined.

(** ** Lines the dispatcher passes over *)

Lemma g_strchug_blank s : blank s = true -> g_strchug s = EmptyString.
Proof.
  induction s as [|c r IH]; simpl; [reflexivity|].
  intro H. apply andb_prop in H. destruct H as [Hc Hr].
  rewrite Hc. now apply IH.
Qed.

(** A vertical tab is white space for [isspace] and not for
    [g_ascii_isspace]: [g_strstrip] keeps it, and a line made of it is not
    blank. *)
Lemma vertical_tab_kept :
  isspace (ascii_of_nat 11) = true
  /\ blank (String (ascii_of_nat 11) EmptyString) = false
  /\ g_strstrip (String (ascii_of_nat 11) EmptyString)
     = String (ascii_of_nat 11) EmptyString.
Proof. repeat split. Qed.

(** X20.  A line of nothing but white space, as [g_strstrip] counts it
    (space, tab, newline, form feed, carriage return), is passed over: it
    is not recorded in the history, not tokenized, and nothing is
    printed. *)
Theorem blank_line_ignored E line w :
  blank line = true -> parse_line E (Some line) w = Returns w.
Proof.
  intro H. unfold parse_line, g_strstrip, g_strchomp.
  rewrite (g_strchug_blank line H). reflexivity.
Qed.

Lemma blank_line_ignored_witness :
  parse_line fake (Some "   ") connected = Returns connected.
Proof. apply (blank_line_ignored fake "   " connected). reflexivity. Defined.

(** ** A value read by handle *)

Lemma for_each_say {A} (f : A -> string) l w :
  for_each l (fun x => say (f x)) w
  = set_trace (trace w ++ map (fun x => printf (f x)) l)%list w.
Proof.
  revert w. induction l as [|a r IH]; intro w; simpl.
  - unfold skip. now rewrite app_nil_r, set_trace_same.
  - unfold seq. rewrite IH. unfold say, emit. cbn [trace set_trace].
    now rewrite <- app_assoc.
Qed.

(** X21.  A read response is printed as one CHAR-VAL-DESC line: code 0
    and the value, two hexadecimal digits per byte in the order received.
    A response that does not decode is reported with the invalid-PDU code,
    an error status with the status itself. *)
Theorem read_value_line E st pdu w :
  added w (char_read_cb E st pdu w)
  = if st =? 0 then
      match dec_read_resp E pdu with
      | Some v =>
          (printf (nl ++ tag "CHAR-VAL-DESC" w ++ ": 0 ")
           :: map (fun b => printf (fmt_02x b ++ " ")) v
           ++ [printf nl; rl rl_forced_update_display])%list
      | None =>
          [printf (nl ++ tag "CHAR-VAL-DESC" w ++ ": "
                   ++ fmt_i ATT_ECODE_INVALID_PDU ++ " "
                   ++ att_ecode2str E ATT_ECODE_INVALID_PDU ++ nl);
           rl rl_forced_update_display]
      end
    else
      [printf (nl ++ tag "CHAR-VAL-DESC" w ++ ": " ++ fmt_i st ++ " "
               ++ att_ecode2str E st ++ nl);
       rl rl_forced_update_display].
Proof.
  unfold char_read_cb. destruct (st =? 0); cbn [negb]; [|listing_failed].
  destruct (dec_read_resp E pdu) as [v|]; [|listing_failed].
  unfold seq at 1 2 3. rewrite for_each_say.
  unfold sayf, reading, update_display, readline_do, say, emit.
  cbn [trace set_trace]. rewrite <- !app_assoc. simpl app.
  exact (added_set_trace _ _).
Qed.

(** ** The descriptor callback's follow-up *)

(** The tail of [char_desc_cb] after a listing that only printed. *)
Lemma char_desc_tail st p h w :
  st = 0 -> only_prints p ->
  exists t,
    (p >> sayf (fun w => tag "CHAR-DESC-END" w ++ ": 0" ++ nl) >>
     reading end_ (fun e =>
       if negb (h =? 65535) && (h <? e)
       then invoke (gatt_find_info (h + 1) e CB_char_desc)
       else update_display)) w
    = set_trace (trace w ++ t)%list w
    /\ (calls t = []
        \/ (st = 0 /\ h + 1 <= end_ w
            /\ calls t = [gatt_find_info (h + 1) (end_ w) CB_char_desc])).
Proof.
  intros Hst Hl.
  assert (Hp : only_prints
                 (p >> sayf (fun w => tag "CHAR-DESC-END" w ++ ": 0" ++ nl)))
    by (unfold sayf; repeat only_prints_step; exact Hl).
  destruct (Hp w) as (t & Ht & Hc).
  unfold seq at 1. unfold reading at 1. rewrite Ht. cbn [end_ set_trace].
  destruct (negb (h =? 65535) && (h <? end_ w)) eqn:Hcond.
  - exists (t ++ [lib (gatt_find_info (h + 1) (end_ w) CB_char_desc)])%list.
    unfold invoke, emit. cbn [trace set_trace].
    rewrite app_assoc, calls_app, Hc. split; [reflexivity|].
    right. apply andb_prop in Hcond. destruct Hcond as [_ Hlt].
    apply Z.ltb_lt in Hlt. repeat split; auto. lia.
  - exists (t ++ [rl rl_forced_update_display])%list.
    unfold update_display, readline_do, emit. cbn [trace set_trace].
    rewrite app_assoc, calls_app, Hc. split; [reflexivity|]. left. reflexivity.
Qed.

Lemma char_desc_rows_only_print E format rows : forall h0,
  only_prints (fst (char_desc_rows E format rows h0)).
Proof.
  induction rows as [|value r IH]; intro h0; simpl.
  - apply only_prints_skip.
  - specialize (IH (att_get_u16 value)).
    destruct (char_desc_rows E format r (att_get_u16 value)) as [p last].
    simpl in *. unfold sayf. repeat only_prints_step. exact IH.
Qed.

(** X22.  [char_desc_cb] changes no global and makes at most one call: a
    find-information request with the same callback, only after a page of
    status 0, and only for a range [h+1, end] that is not empty. *)
Theorem char_desc_follow_up_shape E st pdu w :
  exists t,
    char_desc_cb E st pdu w = set_trace (trace w ++ t)%list w
    /\ (calls t = []
        \/ exists h,
             st = 0 /\ h + 1 <= end_ w
             /\ calls t = [gatt_find_info (h + 1) (end_ w) CB_char_desc]).
Proof.
  assert (Hweak : forall (p : proc) h,
            (exists t, p w = set_trace (trace w ++ t)%list w
               /\ (calls t = []
                   \/ (st = 0 /\ h + 1 <= end_ w
                       /\ calls t
                          = [gatt_find_info (h + 1) (end_ w) CB_char_desc]))) ->
            exists t, p w = set_trace (trace w ++ t)%list w
               /\ (calls t = []
                   \/ exists h,
                        st = 0 /\ h + 1 <= end_ w
                        /\ calls t
                           = [gatt_find_info (h + 1) (end_ w) CB_char_desc])).
  { intros p h (t & Ht & [Hc|Hc]); exists t; split; auto.
    right. exists h. exact Hc. }
  unfold char_desc_cb.
  destruct (st =? 0) eqn:Hst; cbn [negb].
  - apply Z.eqb_eq in Hst.
    destruct (dec_find_info_resp E pdu) as [[format list]|].
    + pose proof (char_desc_rows_only_print E format (data list) 65535) as Hrows.
      destruct (char_desc_rows E format (data list) 65535) as [p last].
      simpl in Hrows. apply (Hweak _ last).
      apply (char_desc_tail st (say nl >> p) last w Hst).
      repeat only_prints_step. exact Hrows.
    + apply (Hweak _ 65535). apply (char_desc_tail st skip 65535 w Hst).
      apply only_prints_skip.
  - assert (Hq : only_prints
                   (sayf (fun w => tag "CHAR-DESC-END" w ++ ": " ++ fmt_i st
                                   ++ " " ++ att_ecode2str E st ++ nl) >>
                    update_display))
      by (unfold sayf, update_display; repeat only_prints_step).
    destruct (Hq w) as (t & Ht & Hc). exists t. auto.
Qed.

(** ** When an MTU exchange is requested *)

(** X23.  [cmd_mtu] sends an exchange request only on a connected LE
    client on which no value is stored yet, for an argument that
    [strtoll] read without a range error and whose conversion to [int] is
    at least the default minimum; the value requested is the one it leaves
    in [opt_mtu].  In every other case nothing is sent. *)
Theorem mtu_request_shape argv w :
  called (cmd_mtu argv w) = called w
  \/ (conn_state w = STATE_CONNECTED
      /\ opt_psm w = 0
      /\ 2 <= argc argv
      /\ opt_mtu w = 0
      /\ errno (strtoll (arg 1 argv) 0) = 0
      /\ ATT_DEFAULT_LE_MTU <= to_int (value (strtoll (arg 1 argv) 0))
      /\ opt_mtu (cmd_mtu argv w) = to_int (value (strtoll (arg 1 argv) 0))
      /\ called (cmd_mtu argv w)
         = (called w
            ++ [gatt_exchange_mtu (to_int (value (strtoll (arg 1 argv) 0)))
                  CB_exchange_mtu])%list).
Proof.
  remember (cmd_mtu argv w) as r eqn:Hr.
  unfold cmd_mtu, reading at 1 in Hr.
  destruct (state_eqb (conn_state w) STATE_CONNECTED) eqn:Hs; cbn [negb] in Hr;
    [|left; subst r; quiet_branch].
  apply state_eqb_eq in Hs. unfold reading at 1 in Hr.
  destruct (opt_psm w =? 0) eqn:Hpsm; cbn [negb] in Hr;
    [|left; subst r; quiet_branch].
  apply Z.eqb_eq in Hpsm.
  destruct (argc argv <? 2) eqn:Hargc; [left; subst r; quiet_branch|].
  apply Z.ltb_ge in Hargc. unfold reading at 1 in Hr.
  destruct (opt_mtu w =? 0) eqn:Hmtu; cbn [negb] in Hr;
    [|left; subst r; quiet_branch].
  apply Z.eqb_eq in Hmtu.
  unfold seq at 1 in Hr. unfold reading at 1 in Hr.
  cbn [opt_mtu set_opt_mtu] in Hr.
  destruct (errno (strtoll (arg 1 argv) 0) =? 0) eqn:He; cbn [negb orb] in Hr.
  - destruct (to_int (value (strtoll (arg 1 argv) 0)) <? ATT_DEFAULT_LE_MTU)
      eqn:Hlt.
    + left. subst r.
      assert (Hq : forall v f, preserves called
                (set_opt_mtu v >> (sayf f >> update_display)))
        by (intros v f; unfold sayf, update_display; frame).
      apply (Hq _ _ w).
    + right. subst r. apply Z.eqb_eq in He. apply Z.ltb_ge in Hlt.
      repeat (split; [assumption|]). split; [reflexivity|].
      unfold invoke. rewrite emit_called_lib. reflexivity.
  - left. subst r.
    assert (Hq : forall v f, preserves called
              (set_opt_mtu v >> (sayf f >> update_display)))
      by (intros v f; unfold sayf, update_display; frame).
    apply (Hq _ _ w).
Qed.

(** ** The configured security level *)

Lemma emit_opt_sec_level e : preserves opt_sec_level (emit e).
Proof. intro w. reflexivity. Qed.

Lemma run_opt_sec_level E h argv :
  h <> Cmd_sec_level -> preserves opt_sec_level (run E h argv).
Proof.
  intro Hp. destruct h; try congruence; simpl;
    unfold cmd_connect, cmd_disconnect, disconnect_io, set_state;
    unfold_program; frame.
Qed.

Lemma callbacks_opt_sec_level E :
  (forall err, preserves opt_sec_level (connect_cb E err))
  /\ preserves opt_sec_level channel_watcher
  /\ (forall pdu, preserves opt_sec_level (events_handler E pdu))
  /\ (forall l st, preserves opt_sec_level (primary_all_cb E l st))
  /\ (forall l st, preserves opt_sec_level (primary_by_uuid_cb E l st))
  /\ (forall l st, preserves opt_sec_level (char_cb E l st))
  /\ (forall st pdu, preserves opt_sec_level (char_read_cb E st pdu))
  /\ (forall st pdu, preserves opt_sec_level (char_write_req_cb E st pdu))
  /\ (forall st pdu, preserves opt_sec_level (exchange_mtu_cb E st pdu)).
Proof.
  repeat split; intros;
    unfold connect_cb, channel_watcher, disconnect_io, set_state;
    unfold_program; frame.
Qed.

(** [cmd_sec_level] keeps the configured level or replaces it by a string
    it has accepted. *)
Lemma cmd_sec_level_level E argv w :
  opt_sec_level (cmd_sec_level E argv w) = opt_sec_level w
  \/ (opt_sec_level (cmd_sec_level E argv w) = Some (arg 1 argv)
      /\ valid_level (arg 1 argv) = true).
Proof.
  destruct (argc argv <? 2) eqn:Hargc.
  - left. unfold cmd_sec_level. rewrite Hargc. reflexivity.
  - apply Z.ltb_ge in Hargc.
    destruct (valid_level (arg 1 argv)) eqn:Hvalid.
    + right. split; [|reflexivity].
      destruct (cmd_sec_level_valid E argv w Hargc Hvalid) as [lvl Heq].
      rewrite Heq. unfold seq. now rewrite sec_level_apply_opt_sec_level.
    + left. unfold cmd_sec_level, valid_level in *.
      replace (argc argv <? 2) with false by (symmetry; apply Z.ltb_ge; lia).
      destruct (strcasecmp_eq (arg 1 argv) "medium"); [discriminate|].
      destruct (strcasecmp_eq (arg 1 argv) "high"); [discriminate|].
      destruct (strcasecmp_eq (arg 1 argv) "low"); [discriminate|].
      reflexivity.
Qed.

Lemma step_level_valid w w' :
  step w w' ->
  (exists s, opt_sec_level w = Some s /\ valid_level s = true) ->
  exists s, opt_sec_level w' = Some s /\ valid_level s = true.
Proof.
  intros (E & ev & H) Hinv.
  assert (Hkeep : forall w0, opt_sec_level w0 = opt_sec_level w ->
            exists s, opt_sec_level w0 = Some s /\ valid_level s = true)
    by (intros w0 ->; exact Hinv).
  destruct (callbacks_opt_sec_level E)
    as (C0 & Cw & C1 & C2 & C3 & C4 & C5 & C6 & C7).
  destruct ev; simpl in H; try (injection H as <-).
  - unfold parse_line in H. destruct line_read as [line|].
    + destruct (String.eqb (g_strstrip line) EmptyString);
        [injection H as <-; exact Hinv|].
      destruct (g_shell_parse_argv E (g_strstrip line)) as [[|name argv]|];
        try discriminate.
      destruct (lookup name) as [c|]; injection H as <-; [|exact Hinv].
      destruct (func c) eqn:Hf;
        try (apply Hkeep;
             transitivity
               (opt_sec_level (readline_do (add_history (g_strstrip line)) w));
             [apply run_opt_sec_level; congruence | reflexivity]).
      simpl.
      destruct (cmd_sec_level_level E (name :: argv)
                  (readline_do (add_history (g_strstrip line)) w))
        as [Hsame | [Hnew Hvalid]].
      * apply Hkeep. rewrite Hsame. reflexivity.
      * eexists. split; [exact Hnew | exact Hvalid].
    + injection H as <-. exact Hinv.
  - apply Hkeep, C0.
  - apply Hkeep, Cw.
  - apply Hkeep, C1.
  - apply Hkeep, C2.
  - apply Hkeep, C3.
  - apply Hkeep, C4.
  - apply Hkeep, (char_desc_cb_frame opt_sec_level E status pdu emit_opt_sec_level).
  - apply Hkeep, C5.
  - apply Hkeep, (char_read_by_uuid_cb_frame opt_sec_level E status pdu user_data
                    emit_opt_sec_level).
  - apply Hkeep, C6.
  - apply Hkeep, C7.
  - apply Hkeep.
    assert (Hq : preserves opt_sec_level
                   (readline_do rl_callback_handler_remove >> cmd_disconnect []))
      by (unfold cmd_disconnect, disconnect_io, set_state;
          unfold_program; frame).
    apply Hq.
Qed.

(** X24.  In every reachable state a security level is configured, and it
    is one of low, medium and high up to case: the level starts as low and
    only [cmd_sec_level] replaces it, by a string it has accepted. *)
Theorem reachable_level_valid w :
  reachable w ->
  exists s, opt_sec_level w = Some s /\ valid_level s = true.
Proof.
  induction 1 as [src dst dst_type psm | w w' Hr IH Hstep].
  - exists "low". split; reflexivity.
  - exact (step_level_valid w w' Hstep IH).
Qed.

Lemma reachable_level_valid_witness :
  exists s, opt_sec_level connected = Some s /\ valid_level s = true.
Proof. apply (reachable_level_valid connected). exact reachable_connected. Defined.
